(** * floodlights.py: configuration store, controller and command line

    A shallow embedding of [floodlights.py].  The script keeps its device
    credentials in an INI file read through [configparser.ConfigParser],
    talks to the lamp through [tinytuya.OutletDevice] and is driven by four
    [click] commands.  The three libraries are outside the script: the
    configuration parser is modelled on its in-memory dictionaries, what
    it makes of the file it has written is a parameter of the development,
    as are the device library and [float], and of click only what the
    script relies on is modelled (prompts, the default of an option, the
    exit at the end of a command). *)

From Stdlib Require Import String Ascii List ZArith Lia Bool.
From stdpp Require Import base option gmap strings fin_maps.
Import ListNotations.
Local Open Scope string_scope.
Local Open Scope list_scope.

(** ** Strings *)

Definition is_percent (c : ascii) : bool := Ascii.eqb c "%"%char.

(** ['%' in s] *)
Fixpoint has_percent (s : string) : bool :=
  match s with
  | EmptyString => false
  | String c r => is_percent c || has_percent r
  end.

(** [bool(s)] for a string: the empty string is false. *)
Definition truthy (s : string) : bool :=
  match s with EmptyString => false | String _ _ => true end.

(** Strings are sequences of bytes, a Python [str] in UTF-8.  A string is
    ASCII when every byte is below 128. *)
Fixpoint is_ascii (s : string) : bool :=
  match s with
  | EmptyString => true
  | String c r => (nat_of_ascii c <? 128)%nat && is_ascii r
  end.

(** [str.lower] on an ASCII string: the letters A to Z and nothing else. *)
Definition lower_ascii (c : ascii) : ascii :=
  let n := nat_of_ascii c in
  if (65 <=? n)%nat && (n <=? 90)%nat then ascii_of_nat (n + 32) else c.

Fixpoint lower_ascii_string (s : string) : string :=
  match s with
  | EmptyString => EmptyString
  | String c r => String (lower_ascii c) (lower_ascii_string r)
  end.

(** [sub] occurs in [s]. *)
Definition contains (sub s : string) : Prop :=
  exists pre post, s = String.append pre (String.append sub post).

(** ** The libraries around the script *)

Inductive pyval : Type :=
| PyBool (b : bool)
| PyInt (z : Z)
| PyStr (s : string).

(** A Python dict with string keys, in insertion order. *)
Definition dict (V : Type) : Type := list (string * V).

(** The dict returned by [device.status()]; a field is [None] when the key
    is absent. *)
Record status_data : Type := MkStatus {
  devId : option pyval;
  dps : option (dict pyval)
}.

(** The part of tinytuya that the script calls: [E] its failures, [D] the
    state of the library and of the lamp behind it, [F] Python's floats.
    A call returns [inl e] when it raises [e]. *)
Record TinyTuya (E D F : Type) : Type := MkTinyTuya {
  OutletDevice : string -> string -> string -> D -> D * (E + unit);
  set_version : F -> D -> D * (E + unit);
  set_value : Z -> pyval -> D -> D * (E + unit);
  device_status : D -> D * (E + status_data)
}.
Arguments MkTinyTuya {E D F}.
Arguments OutletDevice {E D F}.
Arguments set_version {E D F}.
Arguments set_value {E D F}.
Arguments device_status {E D F}.

(** [_defaults] and [_sections] of a [configparser.ConfigParser]. *)
Record ConfigParser : Type := MkConfig {
  defaults : gmap string string;
  sections : gmap string (gmap string string)
}.

(** A configuration file, as [config.read] takes it: the sections and
    options that it reads from the file, or, for a file that it refuses, the
    ones that it has taken when it raises its error. *)
Inductive ini_file : Type :=
| Readable (content : ConfigParser)
| Refused (taken : ConfigParser).

(** What a run depends on besides the script. *)
Class Platform : Type := MkPlatform {
  E : Type;
  D : Type;
  F : Type;
  tinytuya : TinyTuya E D F;
  (** [float(s)]: [None] when Python raises [ValueError]. *)
  float : string -> option F;
  (** [str.lower] on a string that is not ASCII. *)
  str_lower : string -> string;
  (** The file that [config.write] leaves for a parser.  The text of the
      file is not modelled: what [config.read] makes of it is all that the
      script sees of it, and nothing is assumed of that.  (The reader drops
      the blanks at the ends of a value, and takes a carriage return inside
      a value for the end of a line.) *)
  ini_written : ConfigParser -> ini_file
}.

(** [str.lower] *)
Definition lower {P : Platform} (s : string) : string :=
  if is_ascii s then lower_ascii_string s else str_lower s.

Section Floodlights.

Context {P : Platform}.

(** ** Exceptions *)

Inductive exn : Type :=
| ConfigError                      (* line 46 *)
| NoSectionError
| NoOptionError
| InterpolationSyntaxError
| InterpolationMissingOptionError
| InterpolationDepthError
| ValueError
| KeyError
| ReadError                        (* what [config.read] raises on a file it refuses:
                                      ParsingError, MissingSectionHeaderError,
                                      DuplicateSectionError or DuplicateOptionError *)
| Abort                            (* click.exceptions.Abort *)
| UsageError                       (* click.exceptions.UsageError *)
| SystemExit (code : Z)
| LibError (e : E).                (* whatever tinytuya raises *)

Inductive result (A : Type) : Type :=
| Ok (a : A)
| Raise (e : exn).
Arguments Ok {A} a.
Arguments Raise {A} e.

(** ** configparser.ConfigParser *)

(** [configparser.ConfigParser()] *)
Definition new_config : ConfigParser := MkConfig ∅ ∅.

Definition default_section : string := "DEFAULT".

Definition optionxform (optionstr : string) : string := lower optionstr.

Definition has_section (section : string) (c : ConfigParser) : bool :=
  bool_decide (is_Some (sections c !! section)).

(** *** BasicInterpolation *)

(** [value.replace('%%', '')] *)
Fixpoint strip_escaped (s : string) : string :=
  match s with
  | EmptyString => EmptyString
  | String c r =>
      if is_percent c then
        match r with
        | String d r' =>
            if is_percent d then strip_escaped r' else String c (strip_escaped r)
        | EmptyString => String c EmptyString
        end
      else String c (strip_escaped r)
  end.

(** The body of a reference after its opening parenthesis: the longest run
    of characters other than [')'], which must not be empty and must be
    followed by [")s"].  Returns the name and the number of characters
    read, the two closing ones included. *)
Fixpoint key_body (s : string) : option (string * nat) :=
  match s with
  | EmptyString => None
  | String c r =>
      if Ascii.eqb c ")"%char then
        match r with
        | String d _ => if Ascii.eqb d "s"%char then Some (EmptyString, 2%nat) else None
        | EmptyString => None
        end
      else
        match key_body r with
        | Some (name, n) => Some (String c name, S n)
        | None => None
        end
  end.

(** [_KEYCRE.match(s)] for [_KEYCRE = %\(([^)]+)\)s]: the name, and
    [m.end()]. *)
Definition keycre_match (s : string) : option (string * nat) :=
  match s with
  | String c (String d r) =>
      if is_percent c && Ascii.eqb d "("%char then
        match key_body r with
        | Some (EmptyString, _) => None
        | Some (name, n) => Some (name, (2 + n)%nat)
        | None => None
        end
      else None
  | _ => None
  end.

(** [_KEYCRE.sub('', s)]: matches are looked for from left to right and do
    not overlap; [skip] counts the characters of the current match that are
    still to be dropped. *)
Fixpoint keycre_sub (skip : nat) (s : string) : string :=
  match s with
  | EmptyString => EmptyString
  | String c r =>
      match skip with
      | S k => keycre_sub k r
      | O =>
          match keycre_match s with
          | Some (_, n) => keycre_sub (Nat.pred n) r
          | None => String c (keycre_sub 0 r)
          end
      end
  end.

(** [BasicInterpolation.before_set] *)
Definition before_set (value : string) : result string :=
  let tmp_value := strip_escaped value in
  let tmp_value := keycre_sub 0 tmp_value in
  if has_percent tmp_value then Raise ValueError else Ok value.

(** [MAX_INTERPOLATION_DEPTH] *)
Definition MAX_INTERPOLATION_DEPTH : nat := 10.

(** The [while rest] loop of [BasicInterpolation._interpolate_some], read
    one character at a time; [skip] counts the characters that the last
    step has already consumed, and [deeper] is the call one level down. *)
Fixpoint interpolate_loop (deeper : string -> result string)
    (map : string -> option string) (skip : nat) (rest : string)
    : result string :=
  match rest with
  | EmptyString => Ok EmptyString
  | String c r =>
      match skip with
      | S k => interpolate_loop deeper map k r
      | O =>
          if is_percent c then
            match r with
            | String d _ =>
                if is_percent d then
                  match interpolate_loop deeper map 1%nat r with
                  | Ok acc => Ok (String "%"%char acc)
                  | Raise e => Raise e
                  end
                else if Ascii.eqb d "("%char then
                  match keycre_match rest with
                  | None => Raise InterpolationSyntaxError
                  | Some (name, n) =>
                      match map (optionxform name) with
                      | None => Raise InterpolationMissingOptionError
                      | Some v =>
                          match (if has_percent v then deeper v else Ok v) with
                          | Raise e => Raise e
                          | Ok v' =>
                              match interpolate_loop deeper map (Nat.pred n) r with
                              | Ok acc => Ok (String.append v' acc)
                              | Raise e => Raise e
                              end
                          end
                      end
                  end
                else Raise InterpolationSyntaxError
            | EmptyString => Raise InterpolationSyntaxError
            end
          else
            match interpolate_loop deeper map 0%nat r with
            | Ok acc => Ok (String c acc)
            | Raise e => Raise e
            end
      end
  end.

(** [BasicInterpolation._interpolate_some]; [fuel] is the number of nesting
    levels left, [MAX_INTERPOLATION_DEPTH + 1 - depth]. *)
Fixpoint interpolate_some (fuel : nat) (map : string -> option string)
    (rest : string) : result string :=
  match fuel with
  | O => Raise InterpolationDepthError
  | S fuel' => interpolate_loop (interpolate_some fuel' map) map 0%nat rest
  end.

(** [BasicInterpolation.before_get] *)
Definition before_get (map : string -> option string) (value : string)
    : result string :=
  interpolate_some MAX_INTERPOLATION_DEPTH map value.

(** [RawConfigParser._unify_values] without [vars]: the section's own
    options first, then the defaults. *)
Definition unify_values (section : string) (c : ConfigParser)
    : result (string -> option string) :=
  match sections c !! section with
  | Some sectiondict =>
      Ok (fun k => match sectiondict !! k with
                   | Some v => Some v
                   | None => defaults c !! k
                   end)
  | None =>
      if String.eqb section default_section
      then Ok (fun k => defaults c !! k)
      else Raise NoSectionError
  end.

(** [config.get(section, option)] *)
Definition config_get (section option : string) (c : ConfigParser)
    : result string :=
  match unify_values section c with
  | Raise e => Raise e
  | Ok d =>
      match d (optionxform option) with
      | None => Raise NoOptionError
      | Some value => before_get d value
      end
  end.

(** [ConfigParser.set]: the interpolation syntax of a non-empty value is
    checked before anything is stored. *)
Definition config_set (section option value : string) (c : ConfigParser)
    : result ConfigParser :=
  match (if truthy value then before_set value else Ok value) with
  | Raise e => Raise e
  | Ok value =>
      if negb (truthy section) || String.eqb section default_section then
        Ok (MkConfig (<[optionxform option := value]> (defaults c)) (sections c))
      else
        match sections c !! section with
        | None => Raise NoSectionError
        | Some sectdict =>
            Ok (MkConfig (defaults c)
                  (<[section := <[optionxform option := value]> sectdict]> (sections c)))
        end
  end.

(** [add_section] as [read_dict] calls it: an existing section and the
    default section are left alone, their errors being swallowed. *)
Definition add_section (section : string) (c : ConfigParser) : ConfigParser :=
  if String.eqb section default_section then c
  else match sections c !! section with
       | Some _ => c
       | None => MkConfig (defaults c) (<[section := ∅]> (sections c))
       end.

(** The inner loop of [read_dict]; the parser is a mutable object, so the
    options set before a failure stay set.  The keys are taken to differ
    once in lower case, as the four of the script do, so the check for
    duplicate options never fires. *)
Fixpoint set_items (section : string) (items : list (string * string))
    (c : ConfigParser) : ConfigParser * result unit :=
  match items with
  | [] => (c, Ok tt)
  | (key, value) :: items' =>
      match config_set section (optionxform key) value c with
      | Raise e => (c, Raise e)
      | Ok c' => set_items section items' c'
      end
  end.

(** [read_dict({section: items})] *)
Definition read_dict (section : string) (items : list (string * string))
    (c : ConfigParser) : ConfigParser * result unit :=
  set_items section items (add_section section c).

(** [config[key] = value] ([__setitem__]): the section is emptied first.
    The early return of [__setitem__] needs [value] to be the section's own
    proxy object, which a dict display never is. *)
Definition config_setitem (key : string) (value : list (string * string))
    (c : ConfigParser) : ConfigParser * result unit :=
  let c1 :=
    if String.eqb key default_section then MkConfig ∅ (sections c)
    else match sections c !! key with
         | Some _ => MkConfig (defaults c) (<[key := ∅]> (sections c))
         | None => c
         end in
  read_dict key value c1.

(** *** The file

    The content of [~/.floodlights/config.ini] is an [ini_file]. *)

(** What [config.read] makes of the parser when it takes [f] from the
    file: the file's options are set over the ones present. *)
Definition merge_file (f c : ConfigParser) : ConfigParser :=
  MkConfig (defaults f ∪ defaults c)
           (union_with (fun fsec csec => Some (fsec ∪ csec)) (sections f) (sections c)).

(** ** The world *)

Inductive dev_call : Type :=
| CallOutletDevice (dev_id address local_key : string)
| CallSetVersion (version : F)
| CallSetValue (index : Z) (value : pyval)
| CallStatus.

Inductive log_record : Type :=
| LogOnBrightness (brightness : Z)     (* line 67 *)
| LogOn                                (* line 70 *)
| LogStatus (dev : pyval) (dps_data : dict pyval)   (* line 90 *)
| LogOff.                              (* line 95 *)

Record world : Type := MkWorld {
  fs : option ini_file;           (* the configuration file, if it exists *)
  config : ConfigParser;          (* the module-level parser, line 10 *)
  stdin : list string;            (* the lines the user will type *)
  stdout : list string;           (* prompts and [click.echo] *)
  log : list log_record;          (* [logger.info] *)
  net : D;                        (* the library and the lamp *)
  calls : list (dev_call * option E)   (* library calls made, with the failure raised *)
}.

(** ** Statements: state and exceptions *)

Definition M (A : Type) : Type := world -> world * result A.

Definition ret {A} (a : A) : M A := fun w => (w, Ok a).
Definition raise {A} (e : exn) : M A := fun w => (w, Raise e).
Definition bind {A B} (m : M A) (k : A -> M B) : M B :=
  fun w => match m w with
           | (w', Ok a) => k a w'
           | (w', Raise e) => (w', Raise e)
           end.

Notation "x <~ m ;; k" := (bind m (fun x => k))
  (at level 100, m at next level, k at level 200, right associativity).
Notation "m ;;; k" := (bind m (fun _ => k))
  (at level 100, k at level 200, right associativity).

(** [try: body except ConfigError: handler] *)
Definition try_except_ConfigError (body handler : M unit) : M unit :=
  fun w => match body w with
           | (w', Raise ConfigError) => handler w'
           | r => r
           end.

Definition set_config (c : ConfigParser) (w : world) : world :=
  MkWorld (fs w) c (stdin w) (stdout w) (log w) (net w) (calls w).
Definition set_fs (f : option ini_file) (w : world) : world :=
  MkWorld f (config w) (stdin w) (stdout w) (log w) (net w) (calls w).

(** [click.echo(s)] *)
Definition echo (s : string) : M unit :=
  fun w => (MkWorld (fs w) (config w) (stdin w) (stdout w ++ [s]) (log w) (net w) (calls w), Ok tt).

(** [logger.info] *)
Definition logger_info (r : log_record) : M unit :=
  fun w => (MkWorld (fs w) (config w) (stdin w) (stdout w) (log w ++ [r]) (net w) (calls w), Ok tt).

(** The world after a library call: the library's new state, and the call
    recorded with the failure it raised, if any. *)
Definition called (c : dev_call) (failure : option E) (d : D) (w : world) : world :=
  MkWorld (fs w) (config w) (stdin w) (stdout w) (log w) d (calls w ++ [(c, failure)]).

(** A call into the library; a failure is raised as it is. *)
Definition lib_call {A} (c : dev_call) (f : D -> D * (E + A)) : M A :=
  fun w =>
    match f (net w) with
    | (d, inl e) => (called c (Some e) d w, Raise (LibError e))
    | (d, inr a) => (called c None d w, Ok a)
    end.

(** [config.read(config_file_path)]: a file that cannot be opened is
    skipped, and a file that the parser refuses makes it raise. *)
Definition config_read : M unit :=
  fun w => match fs w with
           | Some (Readable f) => (set_config (merge_file f (config w)) w, Ok tt)
           | Some (Refused f) => (set_config (merge_file f (config w)) w, Raise ReadError)
           | None => (w, Ok tt)
           end.

(** [with open(config_file_path, 'w') as configfile: config.write(configfile)] *)
Definition config_write : M unit :=
  fun w => (set_fs (Some (ini_written (config w))) w, Ok tt).

(** [click.prompt(text)]: asks again until the line typed is not empty;
    the end of the input raises [Abort]. *)
Fixpoint prompt_loop (text : string) (lines : list string) (out : list string)
    : list string * list string * result string :=
  match lines with
  | [] => (lines, out ++ [text], Raise Abort)
  | value :: lines' =>
      if truthy value then (lines', out ++ [text], Ok value)
      else prompt_loop text lines' (out ++ [text])
  end.

Definition prompt (text : string) : M string :=
  fun w =>
    let '(lines, out, r) := prompt_loop (String.append text ": ") (stdin w) (stdout w) in
    (MkWorld (fs w) (config w) lines out (log w) (net w) (calls w), r).

(** ** The script *)

(** [not os.path.exists(config_file_path) or not config.has_section('Floodlight')]
    (lines 38 and 50) *)
Definition config_missing : M bool :=
  fun w => (w, Ok (negb (bool_decide (is_Some (fs w)))
                   || negb (has_section "Floodlight" (config w)))).

(** [config[key] = value] on the module-level parser. *)
Definition config_assign (key : string) (value : dict string) : M unit :=
  fun w => let '(c, r) := config_setitem key value (config w) in (set_config c w, r).

(** The first [configure] (lines 18-35), the one that line 39 calls; the
    name is bound again at line 122. *)
Definition configure_prompted : M unit :=
  device_id <~ prompt "Enter Device ID" ;;
  device_ip <~ prompt "Enter Device IP" ;;
  device_key <~ prompt "Enter Device Key" ;;
  device_version <~ prompt "Enter Device Version" ;;
  config_assign "Floodlight"
    [("DEVICE_ID", device_id); ("DEVICE_IP", device_ip);
     ("DEVICE_KEY", device_key); ("DEVICE_VERSION", device_version)] ;;;
  config_write ;;;
  echo "Configuration saved successfully!".

(** Lines 9-39, run when the script is loaded: a fresh parser reads the
    file, and the settings are asked for when there are none. *)
Definition module_body : M unit :=
  (fun w => (set_config new_config w, Ok tt)) ;;;
  config_read ;;;
  missing <~ config_missing ;;
  if missing then configure_prompted else ret tt.

(** Lines 49-51 *)
Definition check_config : M unit :=
  missing <~ config_missing ;;
  if missing then raise ConfigError else ret tt.

Definition get (section option : string) : M string :=
  fun w => (w, config_get section option (config w)).

(** *** FloodlightController *)

(** The fields of the object; [self.device] is the library's handle, whose
    state is [net]. *)
Record FloodlightController : Type := MkController {
  device_id : string;
  device_ip : string;
  device_key : string;
  device_version : string
}.

Definition device_set_value (index : Z) (value : pyval) : M unit :=
  lib_call (CallSetValue index value) (set_value tinytuya index value).

(** [__init__] (lines 54-61) *)
Definition FloodlightController_init : M FloodlightController :=
  check_config ;;;
  id <~ get "Floodlight" "DEVICE_ID" ;;
  ip <~ get "Floodlight" "DEVICE_IP" ;;
  let ip := if truthy ip then ip else "Auto" in
  key <~ get "Floodlight" "DEVICE_KEY" ;;
  version <~ get "Floodlight" "DEVICE_VERSION" ;;
  lib_call (CallOutletDevice id ip key) (OutletDevice tinytuya id ip key) ;;;
  v <~ match float version with
       | Some v => ret v
       | None => raise ValueError
       end ;;
  lib_call (CallSetVersion v) (set_version tinytuya v) ;;;
  ret (MkController id ip key version).

(** [if brightness:] for [None] or an integer. *)
Definition truthy_int (brightness : option Z) : bool :=
  match brightness with
  | None => false
  | Some n => negb (n =? 0)%Z
  end.

(** [on] (lines 63-70) *)
Definition FloodlightController_on (brightness : option Z) : M unit :=
  match brightness with
  | Some n =>
      if truthy_int brightness then
        device_set_value 20 (PyBool true) ;;;
        device_set_value 22 (PyInt n) ;;;
        logger_info (LogOnBrightness n)
      else
        device_set_value 20 (PyBool true) ;;;
        logger_info LogOn
  | None =>
      device_set_value 20 (PyBool true) ;;;
      logger_info LogOn
  end.

(** [d.get(k)] *)
Fixpoint dict_get {V} (k : string) (d : dict V) : option V :=
  match d with
  | [] => None
  | (k', v) :: d' => if String.eqb k' k then Some v else dict_get k d'
  end.

(** [d[k] = v]: an existing key keeps its place, a new one goes last. *)
Fixpoint dict_set {V} (k : string) (v : V) (d : dict V) : dict V :=
  match d with
  | [] => [(k, v)]
  | (k', v') :: d' =>
      if String.eqb k' k then (k', v) :: d' else (k', v') :: dict_set k v d'
  end.

Definition mapping : dict string :=
  [("20", "Power State"); ("21", "Mode"); ("22", "Brightness");
   ("25", "Unknown"); ("26", "Unknown")].

(** [mapping.get(key, f"Unknown Key {key}")] *)
Definition mapped_key (key : string) : string :=
  match dict_get key mapping with
  | Some name => name
  | None => String.append "Unknown Key " key
  end.

(** The [for] loop of lines 81-83, from the [output] built so far. *)
Definition relabel (dps output : dict pyval) : dict pyval :=
  fold_left (fun output kv => dict_set (mapped_key (fst kv)) (snd kv) output) dps output.

(** [map_dps_values] (lines 72-84) *)
Definition map_dps_values (dps : dict pyval) : dict pyval :=
  relabel dps [].

(** [d[k]] *)
Definition getitem {A} (field : option A) : M A :=
  match field with
  | Some a => ret a
  | None => raise KeyError
  end.

(** [status] (lines 86-91); the JSON text of line 89 is kept as the two
    values it is made of. *)
Definition FloodlightController_status : M status_data :=
  data <~ lib_call CallStatus (device_status tinytuya) ;;
  d <~ getitem (dps data) ;;
  let dps_data := map_dps_values d in
  dev <~ getitem (devId data) ;;
  logger_info (LogStatus dev dps_data) ;;;
  ret data.

(** [off] (lines 93-95) *)
Definition FloodlightController_off : M unit :=
  device_set_value 20 (PyBool false) ;;;
  logger_info LogOff.

(** *** The commands *)

(** Lines 101-105; [brightness] is what click passes, an integer. *)
Definition on (brightness : Z) : M unit :=
  FloodlightController_init ;;;
  FloodlightController_on (Some brightness).

(** Lines 107-110 *)
Definition status : M unit :=
  FloodlightController_init ;;;
  FloodlightController_status ;;;
  ret tt.

(** Lines 112-115 *)
Definition off : M unit :=
  FloodlightController_init ;;;
  FloodlightController_off.

(** Lines 117-132, the second [configure] *)
Definition configure (device_id device_ip device_key device_version : string)
    : M unit :=
  config_assign "Floodlight"
    [("DEVICE_ID", device_id); ("DEVICE_IP", device_ip);
     ("DEVICE_KEY", device_key); ("DEVICE_VERSION", device_version)] ;;;
  config_write ;;;
  echo "Configuration saved successfully!".

(** A command line that click accepts.  An option is [None] when its flag
    is not given. *)
Inductive command : Type :=
| CmdConfigure (device_id device_ip device_key device_version : option string)
| CmdStatus
| CmdOn (brightness : option Z)
| CmdOff.

(** [@click.option('--brightness', default=1000, type=int)] *)
Definition brightness_option (flag : option Z) : Z :=
  match flag with
  | Some n => n
  | None => 1000%Z
  end.

(** [@click.option(..., prompt=text)]: the flag's value, whatever it is, or
    else a prompt. *)
Definition prompt_option (flag : option string) (text : string) : M string :=
  match flag with
  | Some value => ret value
  | None => prompt text
  end.

(** The end of a click command run as a program: it leaves through
    [sys.exit], with 0 after the callback, 1 after [Abort] and 2 after a
    usage error; any other exception passes through. *)
Definition click_main (body : M unit) : M unit :=
  fun w => match body w with
           | (w', Ok _) => (w', Raise (SystemExit 0))
           | (w', Raise Abort) => (w', Raise (SystemExit 1))
           | (w', Raise UsageError) => (w', Raise (SystemExit 2))
           | r => r
           end.

(** [cli()] (line 142) *)
Definition cli (cmd : command) : M unit :=
  click_main
    match cmd with
    | CmdConfigure f_id f_ip f_key f_version =>
        id <~ prompt_option f_id "Enter Device ID" ;;
        ip <~ prompt_option f_ip "Enter Device IP" ;;
        key <~ prompt_option f_key "Enter Device Key" ;;
        version <~ prompt_option f_version "Enter Device Version" ;;
        configure id ip key version
    | CmdStatus => status
    | CmdOn flag => on (brightness_option flag)
    | CmdOff => off
    end.

(** [configure()] at line 145: by then the name is the click command, and
    called without arguments it parses [sys.argv[1:]], the command line of
    the run.  An option it does not know stops it at once; otherwise it
    fills in its own four options and then rejects the command's name as an
    extra argument.  The callback is never reached. *)
Definition configure_from_argv (cmd : command) : M unit :=
  click_main
    match cmd with
    | CmdOn (Some _) => raise UsageError
    | CmdConfigure f_id f_ip f_key f_version =>
        prompt_option f_id "Enter Device ID" ;;;
        prompt_option f_ip "Enter Device IP" ;;;
        prompt_option f_key "Enter Device Key" ;;;
        prompt_option f_version "Enter Device Version" ;;;
        raise UsageError
    | _ =>
        prompt "Enter Device ID" ;;;
        prompt "Enter Device IP" ;;;
        prompt "Enter Device Key" ;;;
        prompt "Enter Device Version" ;;;
        raise UsageError
    end.

(** Lines 139-146 *)
Definition main_block (cmd : command) : M unit :=
  config_read ;;;
  try_except_ConfigError (cli cmd)
    (echo "Configuration file is missing or malformed. Please reconfigure the app." ;;;
     configure_from_argv cmd ;;;
     echo "Please rerun the original command.").

(** One run of [python floodlights.py ...]. *)
Definition main (cmd : command) : M unit :=
  module_body ;;;
  main_block cmd.

End Floodlights.

Arguments Ok {P A} a.
Arguments Raise {P A} e.

(** ** Specification vocabulary *)

(** The value passes the check that [ConfigParser.set] makes. *)
Definition accepted {P : Platform} (value : string) : bool :=
  match (if truthy value then before_set value else Ok value) with
  | Ok _ => true
  | Raise _ => false
  end.

(** The options of the section that both [configure] functions store. *)
Definition settings (device_id device_ip device_key device_version : string)
    : gmap string string :=
  <["device_version" := device_version]>
    (<["device_key" := device_key]>
       (<["device_ip" := device_ip]>
          (<["device_id" := device_id]> ∅))).

(** The world after the settings have been stored and written. *)
Definition saved {P : Platform} (id ip key version : string) (w : world) : world :=
  let c := MkConfig (defaults (config w))
             (<["Floodlight" := settings id ip key version]> (sections (config w))) in
  MkWorld (Some (ini_written c)) c (stdin w)
    (stdout w ++ ["Configuration saved successfully!"]) (log w) (net w) (calls w).

(** The errors of [config.get]. *)
Definition parser_error {P : Platform} (e : exn) : bool :=
  match e with
  | NoSectionError | NoOptionError | InterpolationSyntaxError
  | InterpolationMissingOptionError | InterpolationDepthError => true
  | _ => false
  end.

(** The exception that a statement ended with, if any. *)
Definition raised {P : Platform} {A} (r : result A) : option exn :=
  match r with
  | Ok _ => None
  | Raise e => Some e
  end.

(** [m] relates the world it starts in to the world and the exception it
    ends with by [R]. *)
Definition spec {P : Platform} {A} (R : world -> world -> option exn -> Prop)
    (m : M A) : Prop :=
  forall w, R w (m w).1 (raised (m w).2).

(** The file exists and the parser has the section: [check_config]
    passes. *)
Definition has_settings {P : Platform} (w : world) : Prop :=
  is_Some (fs w) /\ has_section "Floodlight" (config w) = true.

(** From a world with settings: the settings stay, nothing is printed and
    [ConfigError] is not raised. *)
Definition quiet_run {P : Platform} (w w' : world) (o : option exn) : Prop :=
  has_settings w ->
  has_settings w' /\ stdout w' = stdout w /\ o <> Some ConfigError.

(** No library call recorded in [l] has failed. *)
Definition all_succeeded {P : Platform} (l : list (dev_call * option E)) : Prop :=
  Forall (fun c => snd c = None) l.

(** A library call that fails is the last one, and its failure is the
    exception that the statement ends with. *)
Definition failure_ends_run {P : Platform} (w w' : world) (o : option exn) : Prop :=
  all_succeeded (calls w) ->
  match o with
  | Some (LibError e) =>
      exists c l, calls w' = l ++ [(c, Some e)] /\ all_succeeded l
  | _ => all_succeeded (calls w')
  end.

(** The request to run the command again (line 146) is not printed. *)
Definition no_rerun_request {P : Platform} (w w' : world) (o : option exn) : Prop :=
  ~ In "Please rerun the original command." (stdout w) ->
  ~ In "Please rerun the original command." (stdout w').


(** The commands that talk to the lamp. *)
Definition device_command (cmd : command) : bool :=
  match cmd with
  | CmdConfigure _ _ _ _ => false
  | _ => true
  end.

(** The library calls that a command may make. *)
Definition permitted {P : Platform} (cmd : command) (c : dev_call) : Prop :=
  match cmd, c with
  | CmdConfigure _ _ _ _, _ => False
  | _, CallOutletDevice _ _ _ => True
  | _, CallSetVersion _ => True
  | CmdStatus, CallStatus => True
  | CmdOff, CallSetValue index value => index = 20%Z /\ value = PyBool false
  | CmdOn flag, CallSetValue index value =>
      (index = 20%Z /\ value = PyBool true)
      \/ (index = 22%Z /\ value = PyInt (brightness_option flag))
  | _, _ => False
  end.

(** The statement adds calls to the record, all of them [allowed], and
    takes none away. *)
Definition only_calls {P : Platform} (allowed : dev_call -> Prop)
    (w w' : world) (o : option exn) : Prop :=
  exists l, calls w' = calls w ++ l /\ Forall (fun c => allowed (fst c)) l.

(** The statement does not raise [ConfigError]. *)
Definition no_ConfigError {P : Platform} (w w' : world) (o : option exn) : Prop :=
  o <> Some ConfigError.

(** The names under which the four settings are stored. *)
Definition setting_names : list string :=
  ["device_id"; "device_ip"; "device_key"; "device_version"].

(** ** Concrete platforms and worlds *)

(** The blanks that the INI reader drops at the ends of a value: the ASCII
    white space of [str.strip], which is the space, the bytes 9 to 13 and
    the bytes 28 to 31. *)
Definition is_blank (c : ascii) : bool :=
  let n := nat_of_ascii c in
  (n =? 32)%nat || ((9 <=? n)%nat && (n <=? 13)%nat) || ((28 <=? n)%nat && (n <=? 31)%nat).

Fixpoint lstrip (s : string) : string :=
  match s with
  | EmptyString => EmptyString
  | String c r => if is_blank c then lstrip r else s
  end.

Fixpoint rstrip (s : string) : string :=
  match s with
  | EmptyString => EmptyString
  | String c r =>
      match rstrip r with
      | EmptyString => if is_blank c then EmptyString else String c EmptyString
      | r' => String c r'
      end
  end.

(** The file of the examples.  Their parsers hold plain names and values
    only: ASCII, of one line, the names without blanks or delimiters.  For
    such a parser the reader finds every section and option in the file
    that [config.write] leaves, and every value without the blanks at its
    ends. *)
Definition ini_one_line (c : ConfigParser) : ini_file :=
  Readable
    (MkConfig ((fun v => rstrip (lstrip v)) <$> defaults c)
       ((fun sectdict : gmap string string => (fun v => rstrip (lstrip v)) <$> sectdict)
          <$> sections c)).

(** Protocol versions as tenths. *)
Definition float_tenths (s : string) : option Z :=
  if String.eqb s "3.1" then Some 31%Z
  else if String.eqb s "3.3" then Some 33%Z
  else if String.eqb s "3.4" then Some 34%Z
  else None.

Definition lamp_status : status_data :=
  MkStatus (Some (PyStr "bf01"))
    (Some [("20", PyBool true); ("21", PyStr "white"); ("22", PyInt 1000);
           ("25", PyInt 0); ("26", PyInt 7); ("101", PyInt 5)]).

(** A lamp that answers every call; its state counts the calls.  The
    strings of the examples are ASCII, and their files the ones above. *)
Definition lamp : Platform :=
  MkPlatform string nat Z
    (MkTinyTuya (fun _ _ _ d => (S d, inr tt))
                (fun _ d => (S d, inr tt))
                (fun _ _ d => (S d, inr tt))
                (fun d => (S d, inr lamp_status)))
    float_tenths
    lower_ascii_string
    ini_one_line.

(** A lamp that accepts the connection and then times out. *)
Definition dead_lamp : Platform :=
  MkPlatform string nat Z
    (MkTinyTuya (fun _ _ _ d => (S d, inr tt))
                (fun _ d => (S d, inr tt))
                (fun _ _ d => (S d, inl "timeout"))
                (fun d => (S d, inl "timeout")))
    float_tenths
    lower_ascii_string
    ini_one_line.

(** No configuration file yet; the user will type [lines]. *)
Definition first_run {P : Platform} (d : D) (lines : list string) : world :=
  MkWorld None new_config lines [] [] d [].

(** A parser and a file that hold the four settings. *)
Definition configured {P : Platform} (d : D) (id ip key version : string) : world :=
  let c := MkConfig ∅ {["Floodlight" := settings id ip key version]} in
  MkWorld (Some (Readable c)) c [] [] [] d [].

(** Settings from an earlier setup, with an option that [configure] does
    not know and a default section. *)
Definition stale {P : Platform} (d : D) : world :=
  let c := MkConfig {["colour" := "red"]}
             {["Floodlight" := <["note" := "old"]> (settings "old" "10.0.0.9" "oldkey" "3.1")]} in
  MkWorld (Some (Readable c)) c [] [] [] d [].

(** A lamp that answers [status] with an error dict, which has neither
    ['dps'] nor ['devId']. *)
Definition erring_lamp : Platform :=
  MkPlatform string nat Z
    (MkTinyTuya (fun _ _ _ d => (S d, inr tt))
                (fun _ d => (S d, inr tt))
                (fun _ _ d => (S d, inr tt))
                (fun d => (S d, inr (MkStatus None None))))
    float_tenths
    lower_ascii_string
    ini_one_line.

(** A file and a parser whose Floodlight section has no key. *)
Definition incomplete {P : Platform} (d : D) : world :=
  let c := MkConfig ∅
             {["Floodlight" := delete "device_key" (settings "bf01" "" "k3y" "3.3")]} in
  MkWorld (Some (Readable c)) c [] [] [] d [].

(** ** Properties *)

Section Properties.

Context {P : Platform}.

(** *** Statements *)

Lemma bind_Ok {A B} (m : M A) (k : A -> M B) w w' a :
  m w = (w', Ok a) -> bind m k w = k a w'.
Proof. intros H. unfold bind. now rewrite H. Qed.

Lemma bind_Raise {A B} (m : M A) (k : A -> M B) w w' e :
  m w = (w', Raise e) -> bind m k w = (w', Raise e).
Proof. intros H. unfold bind. now rewrite H. Qed.

(** *** Interpolation of values without a percent sign *)






Lemma accepted_set s :
  accepted s = true -> (if truthy s then before_set s else Ok s) = Ok s.
Proof.
  unfold accepted, before_set. destruct (truthy s); [|reflexivity].
  now destruct (has_percent _).
Qed.




(** *** The parser *)

Lemma config_set_section section option value sectdict c :
  accepted value = true ->
  section <> "" -> section <> default_section ->
  sections c !! section = Some sectdict ->
  config_set section option value c =
    Ok (MkConfig (defaults c)
          (<[section := <[optionxform option := value]> sectdict]> (sections c))).
Proof.
  intros Hacc Hne Hdef Hsec. unfold config_set.
  rewrite (accepted_set _ Hacc), Hsec.
  destruct section as [|a section]; [congruence|]. cbn [truthy negb orb].
  destruct (String.eqb_spec (String a section) default_section); [congruence|].
  reflexivity.
Qed.

Lemma config_set_rejected section option value c :
  accepted value = false -> config_set section option value c = Raise ValueError.
Proof.
  unfold accepted, config_set, before_set.
  destruct (truthy value); [|discriminate].
  now destruct (has_percent _).
Qed.

(** [config['Floodlight'] = {...}] with four values that the parser takes:
    the section is exactly the four options, whatever it held. *)
Lemma config_setitem_settings id ip key version c :
  accepted id = true -> accepted ip = true ->
  accepted key = true -> accepted version = true ->
  config_setitem "Floodlight"
    [("DEVICE_ID", id); ("DEVICE_IP", ip); ("DEVICE_KEY", key);
     ("DEVICE_VERSION", version)] c
  = (MkConfig (defaults c)
       (<["Floodlight" := settings id ip key version]> (sections c)), Ok tt).
Proof.
  intros Hid Hip Hkey Hver.
  assert (Hstart : exists secs, add_section "Floodlight"
            (if String.eqb "Floodlight" default_section then MkConfig ∅ (sections c)
             else match sections c !! "Floodlight" with
                  | Some _ => MkConfig (defaults c) (<["Floodlight" := ∅]> (sections c))
                  | None => c
                  end) = MkConfig (defaults c) (<["Floodlight" := ∅]> secs)
            /\ <["Floodlight" := settings id ip key version]> secs
               = <["Floodlight" := settings id ip key version]> (sections c)).
  { change (String.eqb "Floodlight" default_section) with false. cbv iota.
    unfold add_section. change (String.eqb "Floodlight" default_section) with false.
    cbv iota. destruct (sections c !! "Floodlight") eqn:Hs; cbn [sections defaults].
    - rewrite lookup_insert_eq. exists (sections c). split; reflexivity.
    - rewrite Hs. destruct c as [dflt secs]. exists secs. split; reflexivity. }
  destruct Hstart as (secs & Hstart & Hfinal).
  unfold config_setitem, read_dict. rewrite Hstart. cbn [set_items].
  erewrite config_set_section;
    [|assumption|discriminate|discriminate|cbn [sections]; apply lookup_insert_eq].
  erewrite config_set_section;
    [|assumption|discriminate|discriminate|cbn [sections]; apply lookup_insert_eq].
  erewrite config_set_section;
    [|assumption|discriminate|discriminate|cbn [sections]; apply lookup_insert_eq].
  erewrite config_set_section;
    [|assumption|discriminate|discriminate|cbn [sections]; apply lookup_insert_eq].
  cbn [sections defaults]. rewrite !insert_insert_eq, <- Hfinal. reflexivity.
Qed.



(** *** Saving the settings *)

Lemma configure_run id ip key version w :
  accepted id = true -> accepted ip = true ->
  accepted key = true -> accepted version = true ->
  configure id ip key version w = (saved id ip key version w, Ok tt).
Proof.
  intros Hid Hip Hkey Hver. unfold configure, bind, config_assign.
  rewrite (config_setitem_settings id ip key version (config w) Hid Hip Hkey Hver).
  reflexivity.
Qed.

Lemma set_items_result section items c :
  section <> "" -> section <> default_section ->
  is_Some (sections c !! section) ->
  (set_items section items c).2 =
    if forallb (fun kv => accepted kv.2) items then Ok tt else Raise ValueError.
Proof.
  intros Hne Hdef. revert c.
  induction items as [|[k v] items IH]; intros c [sectdict Hsec]; [reflexivity|].
  cbn [set_items forallb snd]. destruct (accepted v) eqn:Hacc.
  - rewrite (config_set_section section _ v sectdict c Hacc Hne Hdef Hsec).
    cbn [andb]. apply IH. cbn [sections]. rewrite lookup_insert_eq. eauto.
  - rewrite (config_set_rejected section _ v c Hacc). reflexivity.
Qed.

Lemma config_setitem_result section items c :
  section <> "" -> section <> default_section ->
  (config_setitem section items c).2 =
    if forallb (fun kv => accepted kv.2) items then Ok tt else Raise ValueError.
Proof.
  intros Hne Hdef. unfold config_setitem, read_dict.
  apply set_items_result; [assumption..|].
  destruct (String.eqb_spec section default_section); [congruence|].
  unfold add_section.
  destruct (String.eqb_spec section default_section); [congruence|].
  destruct (sections c !! section) eqn:Hs; cbn [sections].
  - rewrite lookup_insert_eq. cbn [sections]. rewrite lookup_insert_eq. eauto.
  - rewrite Hs. cbn [sections]. rewrite lookup_insert_eq. eauto.
Qed.

(** A value that the parser refuses stops [configure] before the file is
    opened. *)
Lemma configure_rejects id ip key version w :
  accepted id && accepted ip && accepted key && accepted version = false ->
  (configure id ip key version w).2 = Raise ValueError
  /\ fs (configure id ip key version w).1 = fs w.
Proof.
  intros H. unfold configure, bind, config_assign.
  pose proof (config_setitem_result "Floodlight"
    [("DEVICE_ID", id); ("DEVICE_IP", ip); ("DEVICE_KEY", key);
     ("DEVICE_VERSION", version)] (config w)) as Hr.
  destruct (config_setitem _ _ _) as [c r]. cbn [snd] in Hr.
  rewrite Hr by discriminate. cbn [forallb snd].
  rewrite andb_true_r, !andb_assoc, H. split; reflexivity.
Qed.

(** *** Constructing the controller *)

Lemma config_get_has_section option value c :
  config_get "Floodlight" option c = Ok value -> has_section "Floodlight" c = true.
Proof.
  unfold config_get, unify_values, has_section.
  destruct (sections c !! "Floodlight"); [intros _; now apply bool_decide_eq_true|].
  change (String.eqb "Floodlight" default_section) with false. discriminate.
Qed.

(** [__init__] on a world whose parser answers the four reads: what is left
    is the library and [float]. *)
Lemma init_run w id ip key version :
  is_Some (fs w) ->
  config_get "Floodlight" "DEVICE_ID" (config w) = Ok id ->
  config_get "Floodlight" "DEVICE_IP" (config w) = Ok ip ->
  config_get "Floodlight" "DEVICE_KEY" (config w) = Ok key ->
  config_get "Floodlight" "DEVICE_VERSION" (config w) = Ok version ->
  let address := if truthy ip then ip else "Auto" in
  let connect := CallOutletDevice id address key in
  FloodlightController_init w =
    match OutletDevice tinytuya id address key (net w) with
    | (d1, inl e) => (called connect (Some e) d1 w, Raise (LibError e))
    | (d1, inr _) =>
        let w1 := called connect None d1 w in
        match float version with
        | None => (w1, Raise ValueError)
        | Some v =>
            match set_version tinytuya v d1 with
            | (d2, inl e) => (called (CallSetVersion v) (Some e) d2 w1, Raise (LibError e))
            | (d2, inr _) =>
                (called (CallSetVersion v) None d2 w1,
                 Ok (MkController id address key version))
            end
        end
    end.
Proof.
  intros Hfile Hid Hip Hkey Hver address connect.
  unfold FloodlightController_init, check_config, config_missing, get, bind, lib_call.
  rewrite (config_get_has_section _ _ _ Hid), (bool_decide_eq_true_2 _ Hfile).
  cbn [negb orb ret]. rewrite Hid, Hip, Hkey, Hver.
  fold address. fold connect.
  destruct (OutletDevice tinytuya id address key (net w)) as [d1 [e|[]]]; [reflexivity|].
  destruct (float version) as [v|]; [|reflexivity].
  cbn [ret raise net]. unfold called at 1 3. cbn [net].
  destruct (set_version tinytuya v d1) as [d2 [e|[]]]; reflexivity.
Qed.

(** Without a file or without the section, [__init__] stops at its first
    line. *)
Lemma init_missing w :
  fs w = None \/ sections (config w) !! "Floodlight" = None ->
  FloodlightController_init w = (w, Raise ConfigError).
Proof.
  intros H. unfold FloodlightController_init, check_config, config_missing, bind, has_section.
  destruct H as [H|H]; rewrite H.
  - rewrite bool_decide_eq_false_2 by (intros [? ?]; discriminate). reflexivity.
  - rewrite (bool_decide_eq_false_2 (is_Some None)) by (intros [? ?]; discriminate).
    rewrite orb_true_r. reflexivity.
Qed.


(** C5, amended. The address that the controller passes to the library is
    the stored one, or ["Auto"] when the stored one is empty, and it is the
    address that the controller keeps.  The construction is the connection
    to that address and then the choice of the protocol version, and it
    stops at the first of them that fails, or at a version that [float]
    does not read. *)
Theorem empty_ip_becomes_Auto w id ip key version :
  is_Some (fs w) ->
  config_get "Floodlight" "DEVICE_ID" (config w) = Ok id ->
  config_get "Floodlight" "DEVICE_IP" (config w) = Ok ip ->
  config_get "Floodlight" "DEVICE_KEY" (config w) = Ok key ->
  config_get "Floodlight" "DEVICE_VERSION" (config w) = Ok version ->
  let address := match ip with EmptyString => "Auto" | String _ _ => ip end in
  let connect := CallOutletDevice id address key in
  FloodlightController_init w =
    match OutletDevice tinytuya id address key (net w) with
    | (d1, inl e) => (called connect (Some e) d1 w, Raise (LibError e))
    | (d1, inr _) =>
        let w1 := called connect None d1 w in
        match float version with
        | None => (w1, Raise ValueError)
        | Some v =>
            match set_version tinytuya v d1 with
            | (d2, inl e) => (called (CallSetVersion v) (Some e) d2 w1, Raise (LibError e))
            | (d2, inr _) =>
                (called (CallSetVersion v) None d2 w1,
                 Ok (MkController id address key version))
            end
        end
    end.
Proof.
  intros Hfile Hid Hip Hkey Hver address connect.
  rewrite (init_run w id ip key version Hfile Hid Hip Hkey Hver).
  assert (Haddr : (if truthy ip then ip else "Auto") = address) by now destruct ip.
  rewrite Haddr. reflexivity.
Qed.

(** C10. A stored version that [float] does not read makes the construction
    of the controller raise [ValueError], after the connection; in each of
    the three commands the error leaves click and the handler of
    [ConfigError] as it is. *)
Theorem bad_version_raises_ValueError w id ip key version d1 :
  is_Some (fs w) ->
  config_get "Floodlight" "DEVICE_ID" (config w) = Ok id ->
  config_get "Floodlight" "DEVICE_IP" (config w) = Ok ip ->
  config_get "Floodlight" "DEVICE_KEY" (config w) = Ok key ->
  config_get "Floodlight" "DEVICE_VERSION" (config w) = Ok version ->
  float version = None ->
  OutletDevice tinytuya id (if truthy ip then ip else "Auto") key (net w) = (d1, inr tt) ->
  let w1 := called (CallOutletDevice id (if truthy ip then ip else "Auto") key) None d1 w in
  FloodlightController_init w = (w1, Raise ValueError)
  /\ forall cmd handler,
       device_command cmd = true ->
       try_except_ConfigError (cli cmd) handler w = (w1, Raise ValueError).
Proof.
  intros Hfile Hid Hip Hkey Hver Hfloat Hconnect w1.
  assert (Hinit : FloodlightController_init w = (w1, Raise ValueError)).
  { rewrite (init_run w id ip key version Hfile Hid Hip Hkey Hver).
    rewrite Hconnect, Hfloat. reflexivity. }
  split; [exact Hinit|].
  intros cmd handler Hcmd.
  destruct cmd; try discriminate Hcmd;
    unfold try_except_ConfigError, cli, click_main, status, on, off;
    rewrite (bind_Raise _ _ _ _ _ Hinit); reflexivity.
Qed.

(** *** Dicts *)

Lemma dict_get_set {V} (k k' : string) (v : V) d :
  dict_get k' (dict_set k v d) = if String.eqb k k' then Some v else dict_get k' d.
Proof.
  induction d as [|[k0 v0] d IH]; cbn [dict_set dict_get]; [reflexivity|].
  destruct (String.eqb_spec k0 k) as [->|Hne]; cbn [dict_get].
  - destruct (String.eqb_spec k k'); reflexivity.
  - rewrite IH. destruct (String.eqb_spec k0 k') as [->|]; [|reflexivity].
    destruct (String.eqb_spec k k'); [congruence|reflexivity].
Qed.

Lemma dict_get_keys {V} (k : string) (d : dict V) :
  In k (map fst d) <-> exists v, dict_get k d = Some v.
Proof.
  induction d as [|[k0 v0] d IH]; cbn [map In dict_get fst].
  - split; [tauto|intros [? ?]; discriminate].
  - destruct (String.eqb_spec k0 k) as [->|Hne].
    + split; eauto.
    + rewrite <- IH. tauto.
Qed.

Lemma dict_set_keys {V} (k k' : string) (v : V) d :
  In k' (map fst (dict_set k v d)) <-> k' = k \/ In k' (map fst d).
Proof.
  rewrite !dict_get_keys, dict_get_set.
  destruct (String.eqb_spec k k') as [->|Hne].
  - split; eauto.
  - split; [tauto|]. intros [->|H]; [congruence|assumption].
Qed.

Lemma dict_set_NoDup {V} (k : string) (v : V) d :
  List.NoDup (map fst d) -> List.NoDup (map fst (dict_set k v d)).
Proof.
  induction d as [|[k0 v0] d IH]; cbn [dict_set map fst]; intros H.
  - constructor; [intros []|constructor].
  - apply List.NoDup_cons_iff in H as [Hnotin Hd].
    destruct (String.eqb_spec k0 k) as [->|Hne]; cbn [map fst].
    + now constructor.
    + constructor; [|auto]. rewrite dict_set_keys. intros [->|H]; tauto.
Qed.

Lemma dict_set_length {V} (k : string) (v : V) d :
  length (dict_set k v d) =
    match dict_get k d with Some _ => length d | None => S (length d) end.
Proof.
  induction d as [|[k0 v0] d IH]; cbn [dict_set dict_get length]; [reflexivity|].
  destruct (String.eqb_spec k0 k); cbn [length]; [reflexivity|].
  rewrite IH. now destruct (dict_get k d).
Qed.

(** *** Relabelling *)

Lemma contains_suffix pre s : contains s (String.append pre s).
Proof.
  exists pre, "". f_equal.
  induction s as [|c s IH]; [reflexivity|].
  change (String c s = String c (String.append s "")). congruence.
Qed.

Lemma relabel_cons k v dps output :
  relabel ((k, v) :: dps) output = relabel dps (dict_set (mapped_key k) v output).
Proof. reflexivity. Qed.

Lemma relabel_app l1 l2 output :
  relabel (l1 ++ l2) output = relabel l2 (relabel l1 output).
Proof. apply fold_left_app. Qed.

Lemma relabel_keys dps : forall output label,
  In label (map fst (relabel dps output))
  <-> In label (map fst output) \/ exists key, In key (map fst dps) /\ label = mapped_key key.
Proof.
  induction dps as [|[k v] dps IH]; intros output label.
  - cbn. split; [tauto|]. intros [H|(key & [] & _)]. exact H.
  - rewrite relabel_cons, IH, dict_set_keys. cbn [map In fst]. split.
    + intros [[->|H]|(key & Hin & ->)]; eauto 6.
    + intros [H|(key & [<-|Hin] & ->)]; eauto 6.
Qed.

Lemma relabel_get dps : forall output label v,
  dict_get label (relabel dps output) = Some v ->
  dict_get label output = Some v \/ exists key, In (key, v) dps /\ mapped_key key = label.
Proof.
  induction dps as [|[k v0] dps IH]; intros output label v.
  - cbn. tauto.
  - rewrite relabel_cons. cbn [In]. intros H. apply IH in H as [H|(key & Hin & Hl)]; [|eauto 6].
    rewrite dict_get_set in H.
    destruct (String.eqb_spec (mapped_key k) label) as [Heq|Hne]; [|tauto].
    injection H as ->. right. exists k. tauto.
Qed.

Lemma relabel_NoDup dps : forall output,
  List.NoDup (map fst output) -> List.NoDup (map fst (relabel dps output)).
Proof.
  induction dps as [|[k v] dps IH]; intros output H; [exact H|].
  rewrite relabel_cons. apply IH, dict_set_NoDup, H.
Qed.

Lemma relabel_length dps : forall output,
  length (relabel dps output) <= length output + length dps.
Proof.
  induction dps as [|[k v] dps IH]; intros output; [cbn; lia|].
  rewrite relabel_cons. specialize (IH (dict_set (mapped_key k) v output)).
  rewrite dict_set_length in IH. cbn [length].
  destruct (dict_get (mapped_key k) output); lia.
Qed.

(** Two entries with one label leave the output shorter than the input. *)
Lemma relabel_collision l1 k1 v1 l2 k2 v2 l3 :
  mapped_key k1 = mapped_key k2 ->
  length (map_dps_values (l1 ++ (k1, v1) :: l2 ++ (k2, v2) :: l3))
  < length (l1 ++ (k1, v1) :: l2 ++ (k2, v2) :: l3).
Proof.
  intros Hsame. unfold map_dps_values.
  rewrite relabel_app, relabel_cons, relabel_app, relabel_cons.
  set (out1 := relabel l1 []).
  set (out2 := relabel l2 (dict_set (mapped_key k1) v1 out1)).
  assert (Hin : In (mapped_key k2) (map fst out2)).
  { unfold out2. rewrite relabel_keys, dict_set_keys. left. left. congruence. }
  apply dict_get_keys in Hin as [v Hv].
  pose proof (relabel_length l3 (dict_set (mapped_key k2) v2 out2)) as H3.
  rewrite dict_set_length, Hv in H3.
  pose proof (relabel_length l2 (dict_set (mapped_key k1) v1 out1)) as H2.
  fold out2 in H2. rewrite dict_set_length in H2.
  pose proof (relabel_length l1 []) as H1. fold out1 in H1. cbn [length] in H1.
  rewrite !List.length_app. cbn [length]. rewrite !List.length_app. cbn [length].
  destruct (dict_get (mapped_key k1) out1); lia.
Qed.

Lemma mapped_key_Unknown key :
  mapped_key key = "Unknown" -> key = "25" \/ key = "26".
Proof.
  unfold mapped_key, mapping. cbn [dict_get].
  destruct (String.eqb_spec "20" key); [discriminate|].
  destruct (String.eqb_spec "21" key); [discriminate|].
  destruct (String.eqb_spec "22" key); [discriminate|].
  destruct (String.eqb_spec "25" key); [auto|].
  destruct (String.eqb_spec "26" key); [auto|].
  cbn. discriminate.
Qed.

(** C3. [map_dps_values] gives a code of its table the name that the table
    holds for it, and any other code the label ["Unknown Key "] followed by
    the code, so the code occurs in the label; the output has an entry
    under the label of each code of the input and no other entry, and the
    value under a label is the value of a code with that label. *)
Theorem map_dps_values_labels :
  (forall key name, dict_get key mapping = Some name -> mapped_key key = name)
  /\ (mapped_key "20" = "Power State" /\ mapped_key "21" = "Mode"
      /\ mapped_key "22" = "Brightness" /\ mapped_key "25" = "Unknown"
      /\ mapped_key "26" = "Unknown")
  /\ (forall key, dict_get key mapping = None ->
        mapped_key key = String.append "Unknown Key " key
        /\ contains key (mapped_key key))
  /\ (forall dps label,
        In label (map fst (map_dps_values dps))
        <-> exists key, In key (map fst dps) /\ label = mapped_key key)
  /\ (forall dps label v,
        dict_get label (map_dps_values dps) = Some v ->
        exists key, In (key, v) dps /\ mapped_key key = label).
Proof.
  split; [|split; [|split; [|split]]].
  - intros key name H. unfold mapped_key. now rewrite H.
  - repeat split; reflexivity.
  - intros key H. unfold mapped_key. rewrite H. split; [reflexivity|].
    apply contains_suffix.
  - intros dps label. unfold map_dps_values. rewrite relabel_keys.
    cbn [map In]. tauto.
  - intros dps label v H. unfold map_dps_values in H.
    apply relabel_get in H as [H|H]; [discriminate H|exact H].
Qed.

(** C9. Codes ["25"] and ["26"] have the same label, ["Unknown"], so a
    status dict that holds both comes out with one entry under that label:
    the keys of the output are distinct, the value under ["Unknown"] is the
    value of one of the two codes, and the output is shorter than the
    input. *)
Theorem unknown_codes_share_one_entry dps v25 v26 :
  In ("25", v25) dps -> In ("26", v26) dps ->
  mapped_key "25" = "Unknown" /\ mapped_key "26" = "Unknown"
  /\ In "Unknown" (map fst (map_dps_values dps))
  /\ List.NoDup (map fst (map_dps_values dps))
  /\ (exists v, dict_get "Unknown" (map_dps_values dps) = Some v
                /\ (In ("25", v) dps \/ In ("26", v) dps))
  /\ length (map_dps_values dps) < length dps.
Proof.
  intros H25 H26.
  assert (Hkey : In "Unknown" (map fst (map_dps_values dps))).
  { unfold map_dps_values. rewrite relabel_keys. right. exists "25".
    split; [|reflexivity]. change "25" with (fst ("25", v25)). now apply in_map. }
  split; [reflexivity|]. split; [reflexivity|]. split; [exact Hkey|]. split; [|split].
  - apply relabel_NoDup. constructor.
  - apply dict_get_keys in Hkey as [v Hv]. exists v. split; [exact Hv|].
    unfold map_dps_values in Hv. apply relabel_get in Hv as [Hv|(key & Hin & Hl)].
    + discriminate Hv.
    + apply mapped_key_Unknown in Hl as [->| ->]; tauto.
  - apply in_split in H25 as (l1 & l2 & ->).
    apply in_app_or in H26 as [H26|[H26|H26]]; [|discriminate H26|].
    + apply in_split in H26 as (l3 & l4 & ->). rewrite <- List.app_assoc.
      cbn [app]. now apply relabel_collision.
    + apply in_split in H26 as (l3 & l4 & ->). now apply relabel_collision.
Qed.

(** *** Switching on *)

Lemma device_set_value_run index value w d :
  set_value tinytuya index value (net w) = (d, inr tt) ->
  device_set_value index value w = (called (CallSetValue index value) None d w, Ok tt).
Proof. intros Hd. unfold device_set_value, lib_call. now rewrite Hd. Qed.

(** [on] when the guard of line 64 fails. *)
Lemma controller_on_power brightness w d1 :
  truthy_int brightness = false ->
  set_value tinytuya 20 (PyBool true) (net w) = (d1, inr tt) ->
  FloodlightController_on brightness w
  = (MkWorld (fs w) (config w) (stdin w) (stdout w) (log w ++ [LogOn]) d1
       (calls w ++ [(CallSetValue 20 (PyBool true), None)]),
     Ok tt).
Proof.
  intros Hguard H1. apply device_set_value_run in H1.
  unfold FloodlightController_on.
  destruct brightness as [n|]; [rewrite Hguard|];
    rewrite (bind_Ok _ _ _ _ _ H1); reflexivity.
Qed.

(** [on] when the guard of line 64 holds. *)
Lemma controller_on_brightness n w d1 d2 :
  n <> 0%Z ->
  set_value tinytuya 20 (PyBool true) (net w) = (d1, inr tt) ->
  set_value tinytuya 22 (PyInt n) d1 = (d2, inr tt) ->
  FloodlightController_on (Some n) w
  = (MkWorld (fs w) (config w) (stdin w) (stdout w) (log w ++ [LogOnBrightness n]) d2
       (calls w ++ [(CallSetValue 20 (PyBool true), None);
                    (CallSetValue 22 (PyInt n), None)]),
     Ok tt).
Proof.
  intros Hn H1 H2. apply device_set_value_run in H1.
  apply (device_set_value_run 22 (PyInt n)
           (called (CallSetValue 20 (PyBool true)) None d1 w)) in H2.
  unfold FloodlightController_on, truthy_int.
  apply Z.eqb_neq in Hn. rewrite Hn. cbn [negb].
  rewrite (bind_Ok _ _ _ _ _ H1), (bind_Ok _ _ _ _ _ H2).
  unfold logger_info, called. cbn [fs config stdin stdout log net calls].
  now rewrite <- List.app_assoc.
Qed.

(** C4, amended. With no brightness, and with brightness 0, the controller
    asks the library to set the power data point and nothing else; with any
    other brightness it asks the library to set the power data point and
    then, on the state that this call leaves, the brightness data point to
    that number.  The world afterwards is the one that the library leaves,
    with these calls recorded and one line logged.  The calls are ones that
    the library answers without a failure. *)
Theorem controller_on_sets_power_then_brightness brightness w d1 :
  set_value tinytuya 20 (PyBool true) (net w) = (d1, inr tt) ->
  let power := (CallSetValue 20 (PyBool true), None) in
  let power_only :=
    (MkWorld (fs w) (config w) (stdin w) (stdout w) (log w ++ [LogOn]) d1
       (calls w ++ [power]), Ok tt) in
  match brightness with
  | None => FloodlightController_on None w = power_only
  | Some n =>
      if (n =? 0)%Z then FloodlightController_on (Some n) w = power_only
      else
        forall d2,
          set_value tinytuya 22 (PyInt n) d1 = (d2, inr tt) ->
          FloodlightController_on (Some n) w
          = (MkWorld (fs w) (config w) (stdin w) (stdout w)
               (log w ++ [LogOnBrightness n]) d2
               (calls w ++ [power; (CallSetValue 22 (PyInt n), None)]),
             Ok tt)
  end.
Proof.
  intros H1 power power_only. destruct brightness as [n|].
  - destruct (n =? 0)%Z eqn:Hn.
    + apply controller_on_power; [cbn; now rewrite Hn|exact H1].
    + intros d2 H2. apply Z.eqb_neq in Hn. now apply controller_on_brightness with d1.
  - now apply controller_on_power.
Qed.

(** C8. The [on] command without [--brightness] asks the library to set the
    power data point and then, on the state that this call leaves, the
    brightness data point to 1000; with [--brightness 0] it asks for the
    power data point only.  Either way the run then exits with 0.  The
    calls are those made after the controller has been constructed, and
    ones that the library answers without a failure. *)
Theorem on_command_default_and_zero w w1 controller d1 :
  FloodlightController_init w = (w1, Ok controller) ->
  set_value tinytuya 20 (PyBool true) (net w1) = (d1, inr tt) ->
  let power := (CallSetValue 20 (PyBool true), None) in
  (forall d2,
     set_value tinytuya 22 (PyInt 1000) d1 = (d2, inr tt) ->
     cli (CmdOn None) w
     = (MkWorld (fs w1) (config w1) (stdin w1) (stdout w1)
          (log w1 ++ [LogOnBrightness 1000]) d2
          (calls w1 ++ [power; (CallSetValue 22 (PyInt 1000), None)]),
        Raise (SystemExit 0)))
  /\ cli (CmdOn (Some 0%Z)) w
     = (MkWorld (fs w1) (config w1) (stdin w1) (stdout w1) (log w1 ++ [LogOn]) d1
          (calls w1 ++ [power]),
        Raise (SystemExit 0)).
Proof.
  intros Hinit H1 power. unfold cli, click_main, on, brightness_option.
  rewrite !(bind_Ok _ _ _ _ _ Hinit). split.
  - intros d2 H2.
    now rewrite (controller_on_brightness 1000 w1 d1 d2 ltac:(discriminate) H1 H2).
  - now rewrite (controller_on_power (Some 0%Z) w1 d1 eq_refl H1).
Qed.

(** *** What [config.get] can raise *)

Lemma interpolate_loop_raises deeper map :
  (forall v e, deeper v = Raise e -> parser_error e = true) ->
  forall s skip e,
    interpolate_loop deeper map skip s = Raise e -> parser_error e = true.
Proof.
  intros Hdeeper. induction s as [|c r IHs]; intros skip e; [discriminate|].
  cbn [interpolate_loop]. destruct skip as [|k]; [|apply IHs].
  destruct (is_percent c).
  - destruct r as [|d r']; [intros [= <-]; reflexivity|].
    destruct (is_percent d).
    { destruct (interpolate_loop deeper map 1 _) eqn:Hl; [discriminate|].
      intros [= ->]. exact (IHs _ _ Hl). }
    destruct (Ascii.eqb d "("%char); [|intros [= <-]; reflexivity].
    destruct (keycre_match _) as [[name n]|]; [|intros [= <-]; reflexivity].
    destruct (map (optionxform name)) as [v|]; [|intros [= <-]; reflexivity].
    destruct (has_percent v).
    + destruct (deeper v) eqn:Hd; [|intros [= <-]; exact (Hdeeper _ _ Hd)].
      destruct (interpolate_loop deeper map (Nat.pred n) _) eqn:Hl; [discriminate|].
      intros [= ->]. exact (IHs _ _ Hl).
    + destruct (interpolate_loop deeper map (Nat.pred n) _) eqn:Hl; [discriminate|].
      intros [= ->]. exact (IHs _ _ Hl).
  - destruct (interpolate_loop deeper map 0 r) eqn:Hl; [discriminate|].
    intros [= ->]. exact (IHs _ _ Hl).
Qed.

Lemma interpolate_some_raises fuel map : forall s e,
  interpolate_some fuel map s = Raise e -> parser_error e = true.
Proof.
  induction fuel as [|fuel IH]; intros s e; [intros [= <-]; reflexivity|].
  cbn [interpolate_some]. now apply interpolate_loop_raises.
Qed.

Lemma config_get_raises section option c e :
  config_get section option c = Raise e -> parser_error e = true.
Proof.
  unfold config_get, unify_values.
  destruct (sections c !! section).
  - destruct (_ !! optionxform option).
    + apply interpolate_some_raises.
    + destruct (defaults c !! optionxform option);
        [apply interpolate_some_raises|intros [= <-]; reflexivity].
  - destruct (String.eqb section default_section); [|intros [= <-]; reflexivity].
    destruct (defaults c !! optionxform option);
      [apply interpolate_some_raises|intros [= <-]; reflexivity].
Qed.

(** *** Rules for [spec] *)

Section Rules.

Variable R : world -> world -> option exn -> Prop.
Hypothesis R_refl : forall w, R w w None.
Hypothesis R_trans : forall w1 w2 w3 o, R w1 w2 None -> R w2 w3 o -> R w1 w3 o.

Lemma spec_ret {A} (a : A) : spec R (ret a).
Proof. intros w. apply R_refl. Qed.

Lemma spec_bind {A B} (m : M A) (k : A -> M B) :
  spec R m -> (forall a, spec R (k a)) -> spec R (bind m k).
Proof.
  intros Hm Hk w. specialize (Hm w). unfold bind.
  destruct (m w) as [w1 [a|e]]; cbn [fst snd raised] in *; [|exact Hm].
  eapply R_trans; [exact Hm|apply Hk].
Qed.

End Rules.

Lemma prompt_loop_raises text lines : forall out e,
  (prompt_loop text lines out).2 = Raise e -> e = Abort.
Proof.
  induction lines as [|line lines IH]; intros out e; cbn [prompt_loop].
  - now intros [= <-].
  - destruct (truthy line); [discriminate|apply IH].
Qed.

Lemma prompt_raises text w e : (prompt text w).2 = Raise e -> e = Abort.
Proof.
  unfold prompt. pose proof (prompt_loop_raises (String.append text ": ") (stdin w) (stdout w) e) as H.
  destruct (prompt_loop _ _ _) as [[lines out] r]. exact H.
Qed.

Lemma prompt_frame text w :
  fs (prompt text w).1 = fs w /\ config (prompt text w).1 = config w
  /\ calls (prompt text w).1 = calls w.
Proof. unfold prompt. destruct (prompt_loop _ _ _) as [[lines out] r]. now cbn. Qed.

Lemma config_set_raises section option value c e :
  config_set section option value c = Raise e -> e = ValueError \/ e = NoSectionError.
Proof.
  unfold config_set, before_set.
  destruct (truthy value); [destruct (has_percent _); [intros [= <-]; auto|]|];
    (destruct (_ || _); [discriminate|]);
    (destruct (sections c !! section); [discriminate|intros [= <-]; auto]).
Qed.

Lemma set_items_raises section items : forall c e,
  (set_items section items c).2 = Raise e -> e = ValueError \/ e = NoSectionError.
Proof.
  induction items as [|[k v] items IH]; intros c e; cbn [set_items]; [discriminate|].
  destruct (config_set section (optionxform k) v c) eqn:Hset; [apply IH|].
  intros [= <-]. eapply config_set_raises, Hset.
Qed.

Lemma config_assign_raises key value w e :
  (config_assign key value w).2 = Raise e -> e = ValueError \/ e = NoSectionError.
Proof.
  unfold config_assign, config_setitem, read_dict.
  pose proof (set_items_raises key value) as H.
  match goal with |- context [set_items key value ?c] => specialize (H c e) end.
  destruct (set_items _ _ _) as [c r]. exact H.
Qed.

Lemma config_assign_frame key value w :
  calls (config_assign key value w).1 = calls w.
Proof. unfold config_assign. now destruct (config_setitem _ _ _). Qed.

(** *** A failure of the library ends the run *)

Lemma failure_refl w : failure_ends_run w w None.
Proof. intros H. exact H. Qed.

Lemma failure_trans w1 w2 w3 o :
  failure_ends_run w1 w2 None -> failure_ends_run w2 w3 o -> failure_ends_run w1 w3 o.
Proof. intros H12 H23 Hw. apply H23, H12, Hw. Qed.

(** A statement that makes no call and raises nothing of the library. *)
Lemma failure_frame {A} (m : M A) :
  (forall w, calls (m w).1 = calls w) ->
  (forall w e, (m w).2 <> Raise (LibError e)) ->
  spec failure_ends_run m.
Proof.
  intros Hcalls Hraise w Hw. specialize (Hcalls w). specialize (Hraise w).
  destruct (m w) as [w' [a|e]]; cbn [fst snd raised] in *; [congruence|].
  destruct e; try congruence. now contradiction (Hraise e).
Qed.

Lemma failure_lib_call {A} c (f : D -> D * (E + A)) : spec failure_ends_run (lib_call c f).
Proof.
  intros w Hw. unfold lib_call.
  destruct (f (net w)) as [d [e|a]]; cbn [fst snd raised called calls].
  - exists c, (calls w). split; [reflexivity|exact Hw].
  - apply Forall_app. split; [exact Hw|]. constructor; [reflexivity|constructor].
Qed.

Lemma failure_click_main body :
  spec failure_ends_run body -> spec failure_ends_run (click_main body).
Proof.
  intros Hb w Hw. specialize (Hb w Hw). unfold click_main.
  destruct (body w) as [w' [a|e]]; cbn [fst snd raised] in *; [exact Hb|].
  destruct e; exact Hb.
Qed.

Lemma failure_try_except body handler :
  spec failure_ends_run body -> spec failure_ends_run handler ->
  spec failure_ends_run (try_except_ConfigError body handler).
Proof.
  intros Hb Hh w Hw. specialize (Hb w Hw). unfold try_except_ConfigError.
  destruct (body w) as [w' [a|e]]; cbn [fst snd raised] in *; [exact Hb|].
  destruct e; try exact Hb. apply Hh, Hb.
Qed.

Lemma failure_prompt text : spec failure_ends_run (prompt text).
Proof.
  apply failure_frame; intros w.
  - apply prompt_frame.
  - intros e H. apply prompt_raises in H. discriminate.
Qed.

Lemma failure_get section option : spec failure_ends_run (get section option).
Proof.
  apply failure_frame; intros w; [reflexivity|].
  intros e H. apply config_get_raises in H. discriminate.
Qed.

Lemma failure_config_assign key value : spec failure_ends_run (config_assign key value).
Proof.
  apply failure_frame; intros w; [apply config_assign_frame|].
  intros e H. apply config_assign_raises in H as [H|H]; discriminate.
Qed.

Lemma failure_config_read : spec failure_ends_run config_read.
Proof.
  apply failure_frame; intros w; unfold config_read;
    destruct (fs w) as [[f|f]|]; try reflexivity; discriminate.
Qed.

Ltac failure_step :=
  match goal with
  | |- spec failure_ends_run (bind _ _) =>
      apply (spec_bind _ failure_trans); [|intros ?]
  | |- spec failure_ends_run (ret _) => apply (spec_ret _ failure_refl)
  | |- spec failure_ends_run (lib_call _ _) => apply failure_lib_call
  | |- spec failure_ends_run (click_main _) => apply failure_click_main
  | |- spec failure_ends_run (try_except_ConfigError _ _) => apply failure_try_except
  | |- spec failure_ends_run (prompt _) => apply failure_prompt
  | |- spec failure_ends_run (get _ _) => apply failure_get
  | |- spec failure_ends_run (config_assign _ _) => apply failure_config_assign
  | |- spec failure_ends_run config_read => apply failure_config_read
  | |- spec failure_ends_run (if ?b then _ else _) => destruct b
  | |- spec failure_ends_run (match ?x with _ => _ end) => destruct x
  | |- spec failure_ends_run _ =>
      apply failure_frame; intros ?; [reflexivity|discriminate]
  end.

Lemma failure_init : spec failure_ends_run FloodlightController_init.
Proof.
  unfold FloodlightController_init, check_config. repeat failure_step.
Qed.

Lemma failure_cli cmd : spec failure_ends_run (cli cmd).
Proof.
  pose proof failure_init.
  unfold cli, status, on, off, configure, prompt_option,
    FloodlightController_on, FloodlightController_status, FloodlightController_off,
    device_set_value, getitem.
  repeat first [assumption | failure_step].
Qed.

Lemma failure_main cmd : spec failure_ends_run (main cmd).
Proof.
  pose proof failure_cli.
  unfold main, main_block, module_body, configure_prompted, configure_from_argv,
    prompt_option.
  repeat first [match goal with H : _ |- _ => apply H end | failure_step].
Qed.

(** C6. In a run of any command, a library call that fails ends the run:
    the failure is the exception that the run ends with, unchanged, and the
    failed call is the last call made.  Nothing catches it: not the
    controller, not the command, not click, not the handler of
    [ConfigError]. *)
Theorem library_failure_propagates cmd w c e :
  all_succeeded (calls w) ->
  In (c, Some e) (calls (main cmd w).1) ->
  (main cmd w).2 = Raise (LibError e)
  /\ exists l, calls (main cmd w).1 = l ++ [(c, Some e)].
Proof.
  intros Hw Hin. pose proof (failure_main cmd w Hw) as H.
  assert (Hclean : forall l, all_succeeded l -> ~ In (c, Some e) l).
  { intros l Hl Hc. unfold all_succeeded in Hl. rewrite List.Forall_forall in Hl.
    specialize (Hl _ Hc). discriminate Hl. }
  destruct (main cmd w) as [w' [a|e']]; cbn [fst snd raised] in *.
  { now contradiction (Hclean _ H). }
  destruct e'; try now contradiction (Hclean _ H).
  destruct H as (c0 & l & Hcalls & Hl). rewrite Hcalls in Hin |- *.
  apply in_app_or in Hin as [Hin|[[= -> ->]|[]]]; [now contradiction (Hclean _ Hl)|].
  split; [reflexivity|]. now exists l.
Qed.

(** *** A command on a world with settings *)

Lemma quiet_refl w : quiet_run w w None.
Proof. intros H. repeat split; [apply H..|discriminate]. Qed.

Lemma quiet_trans w1 w2 w3 o :
  quiet_run w1 w2 None -> quiet_run w2 w3 o -> quiet_run w1 w3 o.
Proof.
  intros H12 H23 Hw. destruct (H12 Hw) as (Hw2 & Hout2 & _).
  destruct (H23 Hw2) as (Hw3 & Hout3 & Ho). repeat split; [apply Hw3..|congruence|exact Ho].
Qed.

(** A statement that leaves the file, the parser and the output alone and
    does not raise [ConfigError]. *)
Lemma quiet_frame {A} (m : M A) :
  (forall w, fs (m w).1 = fs w /\ config (m w).1 = config w /\ stdout (m w).1 = stdout w) ->
  (forall w, (m w).2 <> Raise ConfigError) ->
  spec quiet_run m.
Proof.
  intros Hframe Hraise w [Hfs Hsec]. destruct (Hframe w) as (H1 & H2 & H3).
  specialize (Hraise w). unfold has_settings. rewrite H1, H2.
  repeat split; [assumption..|].
  destruct (m w) as [w' [a|e]]; cbn [snd raised] in *; congruence.
Qed.

Lemma quiet_check_config : spec quiet_run check_config.
Proof.
  intros w Hw. unfold check_config, config_missing, bind. destruct Hw as [Hfs Hsec].
  rewrite (bool_decide_eq_true_2 _ Hfs), Hsec. cbn.
  repeat split; [assumption..|discriminate].
Qed.

Lemma quiet_get section option : spec quiet_run (get section option).
Proof.
  apply quiet_frame; intros w; [now repeat split|].
  intros H. apply config_get_raises in H. discriminate.
Qed.

Lemma quiet_lib_call {A} c (f : D -> D * (E + A)) : spec quiet_run (lib_call c f).
Proof.
  apply quiet_frame; intros w; unfold lib_call;
    destruct (f (net w)) as [d [e|a]]; now repeat split.
Qed.

Lemma quiet_click_main body : spec quiet_run body -> spec quiet_run (click_main body).
Proof.
  intros Hb w Hw. specialize (Hb w Hw). unfold click_main.
  destruct (body w) as [w' [a|e]]; cbn [fst snd raised] in *.
  - destruct Hb as (H1 & H2 & _). repeat split; [apply H1..|assumption|discriminate].
  - destruct Hb as (H1 & H2 & H3).
    destruct e; cbn [fst snd raised]; repeat split;
      solve [apply H1|assumption|discriminate].
Qed.

Ltac quiet_step :=
  match goal with
  | |- spec quiet_run (bind _ _) => apply (spec_bind _ quiet_trans); [|intros ?]
  | |- spec quiet_run (ret _) => apply (spec_ret _ quiet_refl)
  | |- spec quiet_run check_config => apply quiet_check_config
  | |- spec quiet_run (lib_call _ _) => apply quiet_lib_call
  | |- spec quiet_run (click_main _) => apply quiet_click_main
  | |- spec quiet_run (get _ _) => apply quiet_get
  | |- spec quiet_run (if ?b then _ else _) => destruct b
  | |- spec quiet_run (match ?x with _ => _ end) => destruct x
  | |- spec quiet_run _ =>
      apply quiet_frame; intros ?; [now repeat split|discriminate]
  end.

Lemma quiet_cli cmd : device_command cmd = true -> spec quiet_run (cli cmd).
Proof.
  intros Hcmd. destruct cmd; try discriminate Hcmd;
    unfold cli, status, on, off, FloodlightController_init,
      FloodlightController_on, FloodlightController_status, FloodlightController_off,
      device_set_value, getitem;
    repeat quiet_step.
Qed.

Lemma try_except_pass body handler w :
  (body w).2 <> Raise ConfigError ->
  try_except_ConfigError body handler w = body w.
Proof.
  intros H. unfold try_except_ConfigError.
  destruct (body w) as [w' [a|e]]; [reflexivity|].
  destruct e; try reflexivity. now contradiction H.
Qed.

(** *** The first run *)



Lemma merge_file_has_section section f c :
  has_section section c = true -> has_section section (merge_file f c) = true.
Proof.
  unfold has_section. intros H. apply bool_decide_eq_true in H as [sectdict Hs].
  apply bool_decide_eq_true. cbn [merge_file sections].
  rewrite lookup_union_with, Hs. destruct (sections f !! section); cbn; eauto.
Qed.


(** *** The last line of the handler *)

Lemma rerun_refl w : no_rerun_request w w None.
Proof. intros H. exact H. Qed.

Lemma rerun_trans w1 w2 w3 o :
  no_rerun_request w1 w2 None -> no_rerun_request w2 w3 o -> no_rerun_request w1 w3 o.
Proof. intros H12 H23 Hw. apply H23, H12, Hw. Qed.

Lemma rerun_frame {A} (m : M A) :
  (forall w, stdout (m w).1 = stdout w) -> spec no_rerun_request m.
Proof. intros Hout w Hw. now rewrite Hout. Qed.

Lemma rerun_echo s :
  s <> "Please rerun the original command." -> spec no_rerun_request (echo s).
Proof.
  intros Hs w Hw Hin. cbn in Hin. apply in_app_or in Hin as [Hin|[Hin|[]]]; auto.
Qed.

Lemma prompt_loop_out text lines : forall out line,
  In line (prompt_loop text lines out).1.2 -> In line out \/ line = text.
Proof.
  induction lines as [|l lines IH]; intros out line; cbn [prompt_loop].
  - cbn. intros H. apply in_app_or in H as [H|[H|[]]]; auto.
  - destruct (truthy l).
    + cbn. intros H. apply in_app_or in H as [H|[H|[]]]; auto.
    + intros H. apply IH in H as [H|H]; [|auto].
      apply in_app_or in H as [H|[H|[]]]; auto.
Qed.

Lemma rerun_prompt text :
  String.append text ": " <> "Please rerun the original command." ->
  spec no_rerun_request (prompt text).
Proof.
  intros Htext w Hw Hin. unfold prompt in Hin.
  pose proof (prompt_loop_out (String.append text ": ") (stdin w) (stdout w)
                "Please rerun the original command.") as H.
  destruct (prompt_loop _ _ _) as [[lines out] r]. cbn in Hin, H.
  apply H in Hin as [Hin|Hin]; [auto|]. now apply Htext.
Qed.

Lemma rerun_lib_call {A} c (f : D -> D * (E + A)) : spec no_rerun_request (lib_call c f).
Proof.
  apply rerun_frame. intros w. unfold lib_call. now destruct (f (net w)) as [d [e|a]].
Qed.

Lemma rerun_config_assign key value : spec no_rerun_request (config_assign key value).
Proof.
  apply rerun_frame. intros w. unfold config_assign. now destruct (config_setitem _ _ _).
Qed.

Lemma rerun_config_read : spec no_rerun_request config_read.
Proof.
  apply rerun_frame. intros w. unfold config_read. now destruct (fs w) as [[f|f]|].
Qed.

Lemma rerun_click_main body :
  spec no_rerun_request body -> spec no_rerun_request (click_main body).
Proof.
  intros Hb w Hw. specialize (Hb w Hw). unfold click_main.
  destruct (body w) as [w' [a|e]]; [exact Hb|]. destruct e; exact Hb.
Qed.

Lemma rerun_try_except body handler :
  spec no_rerun_request body -> spec no_rerun_request handler ->
  spec no_rerun_request (try_except_ConfigError body handler).
Proof.
  intros Hb Hh w Hw. specialize (Hb w Hw). unfold try_except_ConfigError.
  destruct (body w) as [w' [a|e]]; [exact Hb|].
  destruct e; try exact Hb. apply Hh, Hb.
Qed.

(** A click command run as a program does not return. *)
Lemma click_main_exits body w : raised (click_main body w).2 <> None.
Proof.
  unfold click_main. destruct (body w) as [w' [a|e]]; [discriminate|].
  destruct e; discriminate.
Qed.

(** What follows a statement that does not return is not run. *)
Lemma rerun_bind_exits {A B} (m : M A) (k : A -> M B) :
  spec no_rerun_request m -> (forall w, raised (m w).2 <> None) ->
  spec no_rerun_request (bind m k).
Proof.
  intros Hm Hexit w Hw. specialize (Hm w Hw). specialize (Hexit w). unfold bind.
  destruct (m w) as [w' [a|e]]; [now contradiction Hexit|exact Hm].
Qed.

Ltac rerun_step :=
  match goal with
  | |- spec no_rerun_request (bind (click_main _) _) =>
      apply rerun_bind_exits; [|intros ?; apply click_main_exits]
  | |- spec no_rerun_request (bind _ _) =>
      apply (spec_bind _ rerun_trans); [|intros ?]
  | |- spec no_rerun_request (ret _) => apply (spec_ret _ rerun_refl)
  | |- spec no_rerun_request (echo _) => apply rerun_echo; discriminate
  | |- spec no_rerun_request (prompt _) => apply rerun_prompt; discriminate
  | |- spec no_rerun_request (lib_call _ _) => apply rerun_lib_call
  | |- spec no_rerun_request (config_assign _ _) => apply rerun_config_assign
  | |- spec no_rerun_request config_read => apply rerun_config_read
  | |- spec no_rerun_request (click_main _) => apply rerun_click_main
  | |- spec no_rerun_request (try_except_ConfigError _ _) => apply rerun_try_except
  | |- spec no_rerun_request (if ?b then _ else _) => destruct b
  | |- spec no_rerun_request (match ?x with _ => _ end) => destruct x
  | |- spec no_rerun_request _ => apply rerun_frame; intros ?; reflexivity
  end.

(** In no run is the request to run the command again printed: the handler
    of [ConfigError] ends in click's exit before it reaches line 146. *)
Lemma rerun_request_never_printed cmd : spec no_rerun_request (main cmd).
Proof.
  unfold main, main_block, module_body, configure_prompted, configure_from_argv,
    cli, status, on, off, configure, prompt_option, FloodlightController_init,
    check_config, FloodlightController_on, FloodlightController_status,
    FloodlightController_off, device_set_value, getitem.
  repeat rerun_step.
Qed.

(** *** More on relabelling *)

Lemma mapped_key_cases key :
  (key = "20" /\ mapped_key key = "Power State")
  \/ (key = "21" /\ mapped_key key = "Mode")
  \/ (key = "22" /\ mapped_key key = "Brightness")
  \/ ((key = "25" \/ key = "26") /\ mapped_key key = "Unknown")
  \/ (dict_get key mapping = None
      /\ mapped_key key = String.append "Unknown Key " key).
Proof.
  unfold mapped_key, mapping. cbn [dict_get].
  destruct (String.eqb_spec "20" key) as [<-|]; [now left|].
  destruct (String.eqb_spec "21" key) as [<-|]; [now right; left|].
  destruct (String.eqb_spec "22" key) as [<-|]; [now do 2 right; left|].
  destruct (String.eqb_spec "25" key) as [<-|];
    [do 3 right; left; split; [now left|reflexivity]|].
  destruct (String.eqb_spec "26" key) as [<-|];
    [do 3 right; left; split; [now right|reflexivity]|].
  do 4 right. split; reflexivity.
Qed.

Lemma unknown_label_inj k1 k2 :
  String.append "Unknown Key " k1 = String.append "Unknown Key " k2 -> k1 = k2.
Proof. intros H. cbn in H. injection H as H. exact H. Qed.

Lemma mapped_key_collision k1 k2 :
  mapped_key k1 = mapped_key k2 ->
  k1 = k2 \/ ((k1 = "25" \/ k1 = "26") /\ (k2 = "25" \/ k2 = "26")).
Proof.
  intros H.
  destruct (mapped_key_cases k1) as [[-> E1]|[[-> E1]|[[-> E1]|[[K1 E1]|[_ E1]]]]];
    destruct (mapped_key_cases k2) as [[-> E2]|[[-> E2]|[[-> E2]|[[K2 E2]|[_ E2]]]]];
    rewrite ?E1, ?E2 in H; auto; try discriminate H;
    try (cbn in H; discriminate H).
  left. now apply unknown_label_inj.
Qed.

(** X1. The only two codes that share a label are ["25"] and ["26"]: any
    other two codes with the same label are the same code.  In particular
    a code outside the table never gets a name of the table, nor the label
    of another code. *)
Theorem mapped_key_collides_only_on_25_26 k1 k2 :
  mapped_key k1 = mapped_key k2 ->
  k1 = k2 \/ ((k1 = "25" \/ k1 = "26") /\ (k2 = "25" \/ k2 = "26")).
Proof. exact (mapped_key_collision k1 k2). Qed.

Lemma dict_set_fresh {V} (k : string) (v : V) d :
  ~ In k (map fst d) -> dict_set k v d = d ++ [(k, v)].
Proof.
  induction d as [|[k0 v0] d IH]; cbn [dict_set map fst In app]; [reflexivity|].
  intros H. destruct (String.eqb_spec k0 k) as [->|Hne]; [tauto|].
  f_equal. apply IH. tauto.
Qed.

Lemma relabel_fresh dps : forall output,
  List.NoDup (map (fun kv => mapped_key (fst kv)) dps) ->
  (forall kv, In kv dps -> ~ In (mapped_key (fst kv)) (map fst output)) ->
  relabel dps output = output ++ map (fun kv => (mapped_key (fst kv), snd kv)) dps.
Proof.
  induction dps as [|[k v] dps IH]; intros output Hnodup Hfresh.
  - cbn. now rewrite List.app_nil_r.
  - rewrite relabel_cons. cbn [map fst snd] in *.
    apply List.NoDup_cons_iff in Hnodup as [Hk Hnodup].
    rewrite dict_set_fresh by (apply (Hfresh (k, v)); now left).
    rewrite IH; [now rewrite <- List.app_assoc| exact Hnodup |].
    intros kv Hin. rewrite List.map_app, List.in_app_iff. cbn [map fst In].
    intros [H|[H|[]]].
    + apply (Hfresh kv); [now right|exact H].
    + apply Hk. rewrite H. now apply (in_map (fun kv => mapped_key (fst kv))).
Qed.

Lemma NoDup_map_on {A B} (f : A -> B) (l : list A) :
  (forall x y, In x l -> In y l -> f x = f y -> x = y) ->
  List.NoDup l -> List.NoDup (map f l).
Proof.
  induction l as [|a l IH]; intros Hinj Hl; cbn [map]; [constructor|].
  apply List.NoDup_cons_iff in Hl as [Ha Hl]. constructor.
  - rewrite List.in_map_iff. intros (x & Hfx & Hx).
    assert (x = a) by (apply Hinj; [now right|now left|exact Hfx]). congruence.
  - apply IH; [|exact Hl]. intros x y Hx Hy. apply Hinj; now right.
Qed.

(** X2. On a status dict (distinct codes) that does not hold both ["25"]
    and ["26"], [map_dps_values] only renames: the output has the entries
    of the input in the same order, each under the label of its code, and
    no value is lost. *)
Theorem map_dps_values_renames dps :
  List.NoDup (map fst dps) ->
  ~ (In "25" (map fst dps) /\ In "26" (map fst dps)) ->
  map_dps_values dps = map (fun kv => (mapped_key (fst kv), snd kv)) dps.
Proof.
  intros Hnodup Hnot. unfold map_dps_values.
  rewrite relabel_fresh; [reflexivity| |intros kv _ []].
  rewrite <- (List.map_map fst mapped_key).
  apply NoDup_map_on; [|exact Hnodup].
  intros k1 k2 H1 H2 Hsame.
  destruct (mapped_key_collision k1 k2 Hsame) as [H|[[-> | ->] [-> | ->]]];
    auto; tauto.
Qed.

Lemma relabel_get_last l2 : forall output label v,
  dict_get label output = Some v ->
  (forall kv, In kv l2 -> mapped_key (fst kv) <> label) ->
  dict_get label (relabel l2 output) = Some v.
Proof.
  induction l2 as [|[k0 v0] l2 IH]; intros output label v Hget Hnone; [exact Hget|].
  rewrite relabel_cons. apply IH.
  - rewrite dict_get_set.
    destruct (String.eqb_spec (mapped_key k0) label) as [Heq|]; [|exact Hget].
    now contradiction (Hnone (k0, v0) (or_introl eq_refl)).
  - intros kv Hin. apply Hnone. now right.
Qed.

(** X3. The value that [map_dps_values] keeps under a label is the value of
    the last entry of the input whose code has that label: a later entry
    overwrites an earlier one. *)
Theorem map_dps_values_last_wins l1 key v l2 :
  (forall kv, In kv l2 -> mapped_key (fst kv) <> mapped_key key) ->
  dict_get (mapped_key key) (map_dps_values (l1 ++ (key, v) :: l2)) = Some v.
Proof.
  intros Hlast. unfold map_dps_values. rewrite relabel_app, relabel_cons.
  apply relabel_get_last; [|exact Hlast].
  rewrite dict_get_set, String.eqb_refl. reflexivity.
Qed.

(** *** The calls of a command *)

Section OnlyCalls.

Variable allowed : dev_call -> Prop.

Lemma only_refl w : only_calls allowed w w None.
Proof. exists []. split; [now rewrite List.app_nil_r|constructor]. Qed.

Lemma only_trans w1 w2 w3 o :
  only_calls allowed w1 w2 None -> only_calls allowed w2 w3 o ->
  only_calls allowed w1 w3 o.
Proof.
  intros (l1 & H1 & F1) (l2 & H2 & F2). exists (l1 ++ l2).
  split; [now rewrite H2, H1, List.app_assoc|]. apply Forall_app. now split.
Qed.

Lemma only_frame {A} (m : M A) :
  (forall w, calls (m w).1 = calls w) -> spec (only_calls allowed) m.
Proof.
  intros H w. exists []. split; [now rewrite H, List.app_nil_r|constructor].
Qed.

Lemma only_lib_call {A} c (f : D -> D * (E + A)) :
  allowed c -> spec (only_calls allowed) (lib_call c f).
Proof.
  intros Hc w. unfold lib_call.
  destruct (f (net w)) as [d [e|a]]; cbn [fst snd called calls];
    (eexists; split; [reflexivity|]); (constructor; [exact Hc|constructor]).
Qed.

Lemma only_click_main body :
  spec (only_calls allowed) body -> spec (only_calls allowed) (click_main body).
Proof.
  intros Hb w. specialize (Hb w). unfold click_main.
  destruct (body w) as [w' [a|e]]; [exact Hb|]. destruct e; exact Hb.
Qed.

Lemma only_try_except body handler :
  spec (only_calls allowed) body -> spec (only_calls allowed) handler ->
  spec (only_calls allowed) (try_except_ConfigError body handler).
Proof.
  intros Hb Hh w. specialize (Hb w). unfold try_except_ConfigError.
  destruct (body w) as [w' [a|e]]; [exact Hb|].
  destruct e; try exact Hb. eapply only_trans; [exact Hb|apply Hh].
Qed.

Lemma only_prompt text : spec (only_calls allowed) (prompt text).
Proof. apply only_frame. intros w. apply prompt_frame. Qed.

Lemma only_config_assign key value : spec (only_calls allowed) (config_assign key value).
Proof. apply only_frame. intros w. apply config_assign_frame. Qed.

Lemma only_config_read : spec (only_calls allowed) config_read.
Proof.
  apply only_frame. intros w. unfold config_read. now destruct (fs w) as [[f|f]|].
Qed.

End OnlyCalls.

Ltac only_step :=
  match goal with
  | |- spec (only_calls _) (bind _ _) =>
      apply (spec_bind _ (only_trans _)); [|intros ?]
  | |- spec (only_calls _) (ret _) => apply (spec_ret _ (only_refl _))
  | |- spec (only_calls _) (lib_call _ _) =>
      apply only_lib_call; cbn; solve [exact I | auto]
  | |- spec (only_calls _) (click_main _) => apply only_click_main
  | |- spec (only_calls _) (try_except_ConfigError _ _) => apply only_try_except
  | |- spec (only_calls _) (prompt _) => apply only_prompt
  | |- spec (only_calls _) (config_assign _ _) => apply only_config_assign
  | |- spec (only_calls _) config_read => apply only_config_read
  | |- spec (only_calls _) (if ?b then _ else _) => destruct b
  | |- spec (only_calls _) (match ?x with _ => _ end) => destruct x
  | |- spec (only_calls _) _ => apply only_frame; intros ?; reflexivity
  end.

Lemma only_main cmd : spec (only_calls (permitted cmd)) (main cmd).
Proof.
  destruct cmd as [f_id f_ip f_key f_version| |flag|];
    unfold main, main_block, module_body, configure_prompted, configure_from_argv,
      cli, status, on, off, configure, prompt_option, FloodlightController_init,
      check_config, FloodlightController_on, FloodlightController_status,
      FloodlightController_off, device_set_value, getitem, truthy_int;
    repeat only_step.
Qed.

(** X4. What a run never does.  Whatever the files, the input and the
    library's answers, the calls of the run are added after those already
    recorded, and: [configure] makes no library call; [status] never sets a
    data point; [off] sets nothing but data point 20, to [False]; [on] sets
    nothing but data point 20, to [True], and data point 22, to the
    brightness of the command line (1000 without the flag). *)
Theorem commands_make_only_their_calls cmd w :
  exists l,
    calls (main cmd w).1 = calls w ++ l
    /\ Forall (fun c => permitted cmd (fst c)) l.
Proof. exact (only_main cmd w). Qed.

(** *** The status command on the library's answer *)

(** X5. [status] after the controller is constructed and the library has
    answered.  If the answer has both ['dps'] and ['devId'], one record is
    logged, with the device id and the relabelled data points, and the
    command exits with 0.  If either key is absent (as in the error dicts
    of the library), the lookup raises [KeyError]: nothing is logged, and
    the error leaves click and the handler of [ConfigError] as it is. *)
Theorem status_command_on_answer w w1 controller d' data handler :
  FloodlightController_init w = (w1, Ok controller) ->
  device_status tinytuya (net w1) = (d', inr data) ->
  try_except_ConfigError (cli CmdStatus) handler w =
    match dps data, devId data with
    | Some d, Some dev =>
        (MkWorld (fs w1) (config w1) (stdin w1) (stdout w1)
           (log w1 ++ [LogStatus dev (map_dps_values d)]) d'
           (calls w1 ++ [(CallStatus, None)]),
         Raise (SystemExit 0))
    | _, _ => (called CallStatus None d' w1, Raise KeyError)
    end.
Proof.
  intros Hinit Hstatus.
  unfold try_except_ConfigError, cli, click_main, status.
  rewrite (bind_Ok _ _ _ _ _ Hinit).
  unfold FloodlightController_status, bind, lib_call, getitem. rewrite Hstatus.
  destruct (dps data) as [d|]; [|reflexivity].
  destruct (devId data) as [dev|]; reflexivity.
Qed.

(** *** When the constructor raises [ConfigError] *)

Lemma quiet_init : spec quiet_run FloodlightController_init.
Proof. unfold FloodlightController_init. repeat quiet_step. Qed.

(** X6. The constructor raises [ConfigError] exactly when the file does
    not exist or the parser has no Floodlight section, and then it has read
    no option and called nothing: the world is as it was. *)
Theorem controller_ConfigError_iff w :
  ((FloodlightController_init w).2 = Raise ConfigError
   <-> fs w = None \/ sections (config w) !! "Floodlight" = None)
  /\ ((FloodlightController_init w).2 = Raise ConfigError ->
      (FloodlightController_init w).1 = w).
Proof.
  assert (Hiff : (FloodlightController_init w).2 = Raise ConfigError
                 <-> fs w = None \/ sections (config w) !! "Floodlight" = None).
  { split.
    - intros Hraise.
      destruct (fs w) as [f|] eqn:Hfs; [|now left].
      destruct (sections (config w) !! "Floodlight") as [sectdict|] eqn:Hsec; [|now right].
      assert (Hw : has_settings w).
      { split; [rewrite Hfs; eauto|]. apply bool_decide_eq_true. rewrite Hsec. eauto. }
      destruct (quiet_init w Hw) as (_ & _ & Hno). rewrite Hraise in Hno.
      now contradiction Hno.
    - intros H. now rewrite (init_missing w H). }
  split; [exact Hiff|].
  intros H. apply Hiff in H. now rewrite (init_missing w H).
Qed.

(** *** A section without one of its options *)

Lemma get_missing_option name sectdict w :
  sections (config w) !! "Floodlight" = Some sectdict ->
  sectdict !! optionxform name = None ->
  defaults (config w) !! optionxform name = None ->
  get "Floodlight" name w = (w, Raise NoOptionError).
Proof.
  intros Hsec Hopt Hdef. unfold get, config_get, unify_values.
  now rewrite Hsec, Hopt, Hdef.
Qed.

Lemma get_cases section option w :
  (exists v, get section option w = (w, Ok v))
  \/ (exists e, get section option w = (w, Raise e) /\ parser_error e = true).
Proof.
  unfold get. destruct (config_get section option (config w)) as [v|e] eqn:H; [eauto|].
  right. exists e. split; [reflexivity|]. eapply config_get_raises, H.
Qed.

(** X7. A Floodlight section that lacks one of the four options, with no
    default for it, is not a [ConfigError]: the constructor raises an error
    of the parser ([NoOptionError], unless an interpolation error of an
    earlier option comes first) before any library call, and each of the
    three commands ends with that error uncaught. *)
Theorem missing_option_is_not_handled w sectdict name :
  is_Some (fs w) ->
  sections (config w) !! "Floodlight" = Some sectdict ->
  In name setting_names ->
  sectdict !! name = None ->
  defaults (config w) !! name = None ->
  exists e,
    parser_error e = true
    /\ FloodlightController_init w = (w, Raise e)
    /\ forall cmd handler,
         device_command cmd = true ->
         try_except_ConfigError (cli cmd) handler w = (w, Raise e).
Proof.
  intros Hfile Hsec Hname Hopt Hdef.
  assert (Hinit : exists e, parser_error e = true
                            /\ FloodlightController_init w = (w, Raise e)).
  { assert (Hcheck : check_config w = (w, Ok tt)).
    { unfold check_config, config_missing, bind, has_section.
      rewrite (bool_decide_eq_true_2 _ Hfile), Hsec.
      rewrite bool_decide_eq_true_2 by eauto. reflexivity. }
    unfold FloodlightController_init. rewrite (bind_Ok _ _ _ _ _ Hcheck).
    destruct (get_cases "Floodlight" "DEVICE_ID" w) as [[id Hid]|(e & He & Hpe)];
      [|exists e; split; [exact Hpe|now rewrite (bind_Raise _ _ _ _ _ He)]].
    rewrite (bind_Ok _ _ _ _ _ Hid).
    destruct (get_cases "Floodlight" "DEVICE_IP" w) as [[ip Hip]|(e & He & Hpe)];
      [|exists e; split; [exact Hpe|now rewrite (bind_Raise _ _ _ _ _ He)]].
    rewrite (bind_Ok _ _ _ _ _ Hip).
    destruct (get_cases "Floodlight" "DEVICE_KEY" w) as [[key Hkey]|(e & He & Hpe)];
      [|exists e; split; [exact Hpe|now rewrite (bind_Raise _ _ _ _ _ He)]].
    cbv zeta. rewrite (bind_Ok _ _ _ _ _ Hkey).
    destruct (get_cases "Floodlight" "DEVICE_VERSION" w) as [[ver Hver]|(e & He & Hpe)];
      [|exists e; split; [exact Hpe|now rewrite (bind_Raise _ _ _ _ _ He)]].
    exfalso.
    destruct Hname as [<-|[<-|[<-|[<-|[]]]]].
    - rewrite (get_missing_option "DEVICE_ID" sectdict w Hsec Hopt Hdef) in Hid.
      discriminate Hid.
    - rewrite (get_missing_option "DEVICE_IP" sectdict w Hsec Hopt Hdef) in Hip.
      discriminate Hip.
    - rewrite (get_missing_option "DEVICE_KEY" sectdict w Hsec Hopt Hdef) in Hkey.
      discriminate Hkey.
    - rewrite (get_missing_option "DEVICE_VERSION" sectdict w Hsec Hopt Hdef) in Hver.
      discriminate Hver. }
  destruct Hinit as (e & Hpe & Hinit). exists e. split; [exact Hpe|]. split; [exact Hinit|].
  intros cmd handler Hcmd.
  destruct cmd; try discriminate Hcmd;
    unfold try_except_ConfigError, cli, click_main, status, on, off;
    rewrite (bind_Raise _ _ _ _ _ Hinit); destruct e; try discriminate Hpe; reflexivity.
Qed.

(** *** Reading the file *)

Lemma merge_file_new f : merge_file f new_config = f.
Proof.
  destruct f as [dflt secs]. unfold merge_file, new_config. cbn [defaults sections].
  f_equal; apply map_eq; intros i.
  - rewrite lookup_union, lookup_empty. now destruct (dflt !! i).
  - rewrite lookup_union_with, lookup_empty. now destruct (secs !! i).
Qed.

Lemma merge_file_idem f : merge_file f f = f.
Proof.
  destruct f as [dflt secs]. unfold merge_file. cbn [defaults sections].
  f_equal; apply map_eq; intros i.
  - rewrite lookup_union. now destruct (dflt !! i).
  - rewrite lookup_union_with. destruct (secs !! i) as [sectdict|]; [|reflexivity].
    cbn. f_equal. apply map_eq. intros j. rewrite lookup_union.
    now destruct (sectdict !! j).
Qed.

(** The script's two reads (lines 16 and 140) when the file has the
    section. *)
Lemma load_with_settings w f :
  fs w = Some (Readable f) -> is_Some (sections f !! "Floodlight") ->
  bind module_body (fun _ => config_read) w = (set_config f w, Ok tt).
Proof.
  intros Hfs Hsec.
  unfold module_body, bind, config_read, config_missing, has_section.
  cbn [set_config fs config]. rewrite Hfs. cbn [fst snd set_config fs config].
  rewrite merge_file_new.
  rewrite (bool_decide_eq_true_2 (is_Some (fs w))) by (rewrite Hfs; eauto).
  rewrite (bool_decide_eq_true_2 _ Hsec). cbn [negb orb ret set_config fs config].
  rewrite Hfs. unfold set_config. cbn [fs config stdin stdout log net calls].
  now rewrite merge_file_idem.
Qed.

(** The load stage when there are no settings. *)
Lemma module_body_missing w :
  fs w = None
  \/ (exists f, fs w = Some (Readable f) /\ sections f !! "Floodlight" = None) ->
  exists c0,
    module_body w = configure_prompted (set_config c0 w)
    /\ sections c0 !! "Floodlight" = None.
Proof.
  intros [Hnone|(f & Hf & Hsec)].
  - exists new_config. split; [|apply lookup_empty].
    unfold module_body, bind, config_read, config_missing. cbn [set_config fs].
    rewrite Hnone. cbn [fst snd fs set_config].
    rewrite Hnone, bool_decide_eq_false_2 by (intros [? ?]; discriminate). reflexivity.
  - exists f. split; [|exact Hsec].
    unfold module_body, bind, config_read, config_missing, has_section.
    cbn [set_config fs config]. rewrite Hf. cbn [fst snd set_config fs config].
    rewrite merge_file_new, Hsec.
    rewrite (bool_decide_eq_false_2 (is_Some None)) by (intros [? ?]; discriminate).
    rewrite orb_true_r. unfold set_config. reflexivity.
Qed.

(** *** The handler of [ConfigError] *)

Lemma bind_Ok_inv {A B} (m : M A) (k : A -> M B) w w' b :
  bind m k w = (w', Ok b) -> exists w1 a, m w = (w1, Ok a) /\ k a w1 = (w', Ok b).
Proof.
  unfold bind. destruct (m w) as [w1 [a|e]]; [eauto|discriminate].
Qed.

Lemma nce_refl w : no_ConfigError w w None.
Proof. discriminate. Qed.

Lemma nce_trans w1 w2 w3 o :
  no_ConfigError w1 w2 None -> no_ConfigError w2 w3 o -> no_ConfigError w1 w3 o.
Proof. intros _ H. exact H. Qed.

Lemma nce_prompt text : spec no_ConfigError (prompt text).
Proof.
  intros w. destruct (prompt text w) as [w' [v|e]] eqn:H; [discriminate|].
  pose proof (prompt_raises text w e) as He. rewrite H in He.
  rewrite (He eq_refl). discriminate.
Qed.

Lemma nce_config_assign key value : spec no_ConfigError (config_assign key value).
Proof.
  intros w. destruct (config_assign key value w) as [w' [v|e]] eqn:H; [discriminate|].
  pose proof (config_assign_raises key value w e) as He. rewrite H in He.
  destruct (He eq_refl) as [-> | ->]; discriminate.
Qed.

Lemma nce_click_main body :
  spec no_ConfigError body -> spec no_ConfigError (click_main body).
Proof.
  intros Hb w. specialize (Hb w). unfold click_main.
  destruct (body w) as [w' [a|e]]; [discriminate|]. destruct e; try discriminate.
  now contradiction Hb.
Qed.

Ltac nce_step :=
  match goal with
  | |- spec no_ConfigError (bind _ _) => apply (spec_bind _ nce_trans); [|intros ?]
  | |- spec no_ConfigError (ret _) => apply (spec_ret _ nce_refl)
  | |- spec no_ConfigError (prompt _) => apply nce_prompt
  | |- spec no_ConfigError (config_assign _ _) => apply nce_config_assign
  | |- spec no_ConfigError (click_main _) => apply nce_click_main
  | |- spec no_ConfigError (if ?b then _ else _) => destruct b
  | |- spec no_ConfigError (match ?x with _ => _ end) => destruct x
  | |- spec no_ConfigError _ => intros ?; discriminate
  end.

Lemma nce_module_body : spec no_ConfigError module_body.
Proof.
  unfold module_body, configure_prompted. repeat nce_step.
  intros w. unfold config_read. destruct (fs w) as [[f|f]|]; discriminate.
Qed.

Lemma cli_no_ConfigError cmd w :
  has_settings w -> (cli cmd w).2 <> Raise ConfigError.
Proof.
  intros Hw. destruct (device_command cmd) eqn:Hcmd.
  - destruct (quiet_cli cmd Hcmd w Hw) as (_ & _ & H).
    intros Hc. rewrite Hc in H. now apply H.
  - destruct cmd; try discriminate Hcmd.
    assert (H : spec no_ConfigError
                  (cli (CmdConfigure device_id0 device_ip0 device_key0 device_version0))).
    { unfold cli, configure, prompt_option. repeat nce_step. }
    specialize (H w). intros Hc. rewrite Hc in H. now apply H.
Qed.

Lemma configure_prompted_settings w w1 :
  configure_prompted w = (w1, Ok tt) -> has_settings w1.
Proof.
  unfold configure_prompted. intros H.
  apply bind_Ok_inv in H as (wa & a1 & _ & H).
  apply bind_Ok_inv in H as (wb & a2 & _ & H).
  apply bind_Ok_inv in H as (wc & a3 & _ & H).
  apply bind_Ok_inv in H as (wd & a4 & _ & H).
  change (configure a1 a2 a3 a4 wd = (w1, Ok tt)) in H.
  destruct (accepted a1 && accepted a2 && accepted a3 && accepted a4) eqn:Hacc.
  - apply andb_true_iff in Hacc as [Hacc A4]. apply andb_true_iff in Hacc as [Hacc A3].
    apply andb_true_iff in Hacc as [A1 A2].
    rewrite (configure_run a1 a2 a3 a4 wd A1 A2 A3 A4) in H. injection H as <-.
    split; [cbn; eauto|]. apply bool_decide_eq_true. cbn [saved config sections].
    rewrite lookup_insert_eq. eauto.
  - destruct (configure_rejects a1 a2 a3 a4 wd Hacc) as [Hr _].
    rewrite H in Hr. discriminate Hr.
Qed.

Lemma module_body_settings w w1 :
  module_body w = (w1, Ok tt) -> has_settings w1.
Proof.
  unfold module_body. intros H.
  apply bind_Ok_inv in H as (wa & [] & _ & H).
  apply bind_Ok_inv in H as (wb & [] & _ & H).
  apply bind_Ok_inv in H as (wc & missing & Hm & H).
  unfold config_missing in Hm. injection Hm as <- <-.
  destruct (negb _ || negb _) eqn:Hb.
  - now apply configure_prompted_settings in H.
  - injection H as <-. apply orb_false_iff in Hb as [Hfs Hsec].
    apply negb_false_iff in Hfs, Hsec. split; [|exact Hsec].
    now apply bool_decide_eq_true in Hfs.
Qed.

Lemma config_read_settings w :
  has_settings w -> has_settings (config_read w).1.
Proof.
  intros [Hfs Hsec]. unfold config_read. destruct (fs w) as [[f|f]|] eqn:Hf.
  - split; [cbn; rewrite Hf; eauto|]. cbn. now apply merge_file_has_section.
  - split; [cbn; rewrite Hf; eauto|]. cbn. now apply merge_file_has_section.
  - split; [cbn; rewrite Hf; exact Hfs|exact Hsec].
Qed.

Lemma config_read_raises w e : (config_read w).2 = Raise e -> e = ReadError.
Proof.
  unfold config_read. destruct (fs w) as [[f|f]|]; cbn; congruence.
Qed.

Lemma main_without_handler cmd w :
  main cmd w = bind module_body (fun _ => bind config_read (fun _ => cli cmd)) w
  /\ (main cmd w).2 <> Raise ConfigError.
Proof.
  unfold main. destruct (module_body w) as [w1 [[]|e]] eqn:Hload.
  - rewrite !(bind_Ok _ _ _ _ _ Hload).
    pose proof (config_read_settings w1 (module_body_settings w w1 Hload)) as Hw2.
    pose proof (config_read_raises w1) as Hexn.
    unfold main_block. destruct (config_read w1) as [w2 [[]|e]] eqn:Hread.
    + rewrite !(bind_Ok _ _ _ _ _ Hread).
      rewrite try_except_pass by now apply cli_no_ConfigError.
      split; [reflexivity|now apply cli_no_ConfigError].
    + rewrite !(bind_Raise _ _ _ _ _ Hread). split; [reflexivity|].
      rewrite (Hexn e eq_refl). discriminate.
  - rewrite !(bind_Raise _ _ _ _ _ Hload). split; [reflexivity|].
    pose proof (nce_module_body w) as H. rewrite Hload in H. cbn in H.
    intros [= ->]. now apply H.
Qed.

(** X8. The handler of [ConfigError] (lines 143-146) is never entered: in
    every run, by the time a command checks the settings, the load stage has
    either found them or asked for them and stored them.  A run is the load
    stage, the second read and the command, and it never ends with
    [ConfigError]. *)
Theorem ConfigError_handler_is_dead cmd w :
  main cmd w = bind module_body (fun _ => bind config_read (fun _ => cli cmd)) w
  /\ (main cmd w).2 <> Raise ConfigError.
Proof. exact (main_without_handler cmd w). Qed.

(** X9. When the file holds the Floodlight section, a run starts its
    command on a parser that holds the content of the file and nothing
    else: what the parser held before is dropped, the second read changes
    nothing, and nothing is asked or printed on the way. *)
Theorem run_starts_from_the_file cmd w f :
  fs w = Some (Readable f) -> is_Some (sections f !! "Floodlight") ->
  main cmd w = cli cmd (set_config f w).
Proof.
  intros Hfs Hsec. destruct (main_without_handler cmd w) as [-> _].
  pose proof (load_with_settings w f Hfs Hsec) as Hload.
  unfold bind in Hload |- *.
  destruct (module_body w) as [w1 [[]|e]]; [|discriminate Hload].
  now rewrite Hload.
Qed.


(** *** What [configure] leaves alone *)


(** *** From one run to the next *)




(** *** The first run *)


(** *** The end of the input at load time *)

Lemma prompt_loop_answers text lines : forall out,
  match prompt_loop text lines out with
  | (lines', _, Ok v) => List.filter truthy lines = v :: List.filter truthy lines'
  | (lines', _, Raise _) => List.filter truthy lines = []
  end.
Proof.
  induction lines as [|line lines IH]; intros out; cbn [prompt_loop List.filter].
  - reflexivity.
  - destruct (truthy line) eqn:Hline; [reflexivity|].
    specialize (IH (out ++ [text])).
    now destruct (prompt_loop text lines (out ++ [text])) as [[lines' out'] [v|e]].
Qed.

Lemma prompt_answers text w :
  match prompt text w with
  | (w', Ok v) =>
      List.filter truthy (stdin w) = v :: List.filter truthy (stdin w')
      /\ fs w' = fs w /\ calls w' = calls w
  | (w', Raise e) =>
      e = Abort /\ List.filter truthy (stdin w) = [] /\ fs w' = fs w /\ calls w' = calls w
  end.
Proof.
  pose proof (prompt_raises text w) as Hraise.
  pose proof (prompt_frame text w) as (Hfs & _ & Hcalls). unfold prompt in *.
  pose proof (prompt_loop_answers (String.append text ": ") (stdin w) (stdout w)) as H.
  destruct (prompt_loop _ _ _) as [[lines out] [v|e]]; cbn in *; [auto|].
  repeat split; auto.
Qed.

Lemma configure_prompted_aborts w :
  length (List.filter truthy (stdin w)) < 4 ->
  (configure_prompted w).2 = Raise Abort
  /\ fs (configure_prompted w).1 = fs w
  /\ calls (configure_prompted w).1 = calls w.
Proof.
  intros Hlen. unfold configure_prompted, bind.
  pose proof (prompt_answers "Enter Device ID" w) as P1.
  destruct (prompt "Enter Device ID" w) as [w1 [a1|e]];
    [|destruct P1 as (-> & _ & Hf & Hc); now cbn].
  destruct P1 as (L1 & F1 & C1). rewrite L1 in Hlen.
  pose proof (prompt_answers "Enter Device IP" w1) as P2.
  destruct (prompt "Enter Device IP" w1) as [w2 [a2|e]];
    [|destruct P2 as (-> & _ & Hf & Hc); cbn; repeat split; congruence].
  destruct P2 as (L2 & F2 & C2). rewrite L2 in Hlen.
  pose proof (prompt_answers "Enter Device Key" w2) as P3.
  destruct (prompt "Enter Device Key" w2) as [w3 [a3|e]];
    [|destruct P3 as (-> & _ & Hf & Hc); cbn; repeat split; congruence].
  destruct P3 as (L3 & F3 & C3). rewrite L3 in Hlen.
  pose proof (prompt_answers "Enter Device Version" w3) as P4.
  destruct (prompt "Enter Device Version" w3) as [w4 [a4|e]];
    [|destruct P4 as (-> & _ & Hf & Hc); cbn; repeat split; congruence].
  destruct P4 as (L4 & _). rewrite L4 in Hlen. cbn [length] in Hlen. lia.
Qed.

(** X13. When there are no settings and the input ends before four lines
    that are not empty have been typed, the run stops while the script
    loads, with click's [Abort] as it is (the prompts of this stage are not
    inside a click command): the file is not written and no library call is
    made. *)
Theorem end_of_input_at_load_aborts cmd w :
  (fs w = None
   \/ exists f, fs w = Some (Readable f) /\ sections f !! "Floodlight" = None) ->
  length (List.filter truthy (stdin w)) < 4 ->
  (main cmd w).2 = Raise Abort
  /\ fs (main cmd w).1 = fs w
  /\ calls (main cmd w).1 = calls w.
Proof.
  intros Hmissing Hlen.
  destruct (module_body_missing w Hmissing) as (c0 & Hload & _).
  destruct (configure_prompted_aborts (set_config c0 w) Hlen) as (Hr & Hfs & Hcalls).
  rewrite <- Hload in Hr, Hfs, Hcalls. unfold main, bind.
  destruct (module_body w) as [w1 [[]|e]]; cbn [fst snd] in *; [discriminate Hr|].
  injection Hr as ->. now repeat split.
Qed.


End Properties.

(** ** The theorems at concrete runs *)





Lemma controller_on_sets_power_then_brightness_witness :
  FloodlightController_on (Some 500%Z)
    (configured (P := lamp) 0%nat "bf01" "192.168.1.20" "k3y" "3.3")
  = (MkWorld (P := lamp)
       (fs (configured (P := lamp) 0%nat "bf01" "192.168.1.20" "k3y" "3.3"))
       (config (configured (P := lamp) 0%nat "bf01" "192.168.1.20" "k3y" "3.3"))
       [] [] [LogOnBrightness 500] 2%nat
       [(CallSetValue 20 (PyBool true), None); (CallSetValue 22 (PyInt 500), None)],
     Ok tt)
  /\ FloodlightController_on None
       (configured (P := lamp) 0%nat "bf01" "192.168.1.20" "k3y" "3.3")
     = (MkWorld (P := lamp)
          (fs (configured (P := lamp) 0%nat "bf01" "192.168.1.20" "k3y" "3.3"))
          (config (configured (P := lamp) 0%nat "bf01" "192.168.1.20" "k3y" "3.3"))
          [] [] [LogOn] 1%nat [(CallSetValue 20 (PyBool true), None)],
        Ok tt).
Proof.
  split.
  - exact (controller_on_sets_power_then_brightness (Some 500%Z)
             (configured (P := lamp) 0%nat "bf01" "192.168.1.20" "k3y" "3.3") 1%nat
             eq_refl 2%nat eq_refl).
  - exact (controller_on_sets_power_then_brightness None
             (configured (P := lamp) 0%nat "bf01" "192.168.1.20" "k3y" "3.3") 1%nat
             eq_refl).
Defined.

(** C4 as stated fails on brightness 0: the brightness data point is not
    set. *)
Lemma controller_on_zero_brightness :
  map fst (calls (FloodlightController_on (Some 0%Z)
                    (configured (P := lamp) 0%nat "bf01" "192.168.1.20" "k3y" "3.3")).1)
  = [CallSetValue (P := lamp) 20 (PyBool true)]
  /\ ~ In (CallSetValue (P := lamp) 22 (PyInt 0))
         (map fst (calls (FloodlightController_on (Some 0%Z)
                            (configured (P := lamp) 0%nat "bf01" "192.168.1.20" "k3y" "3.3")).1)).
Proof.
  assert (H : map fst (calls (FloodlightController_on (Some 0%Z)
                                (configured (P := lamp) 0%nat
                                   "bf01" "192.168.1.20" "k3y" "3.3")).1)
              = [CallSetValue (P := lamp) 20 (PyBool true)]) by reflexivity.
  split; [exact H|]. rewrite H. intros [H'|[]]. discriminate H'.
Qed.

Lemma empty_ip_becomes_Auto_witness :
  FloodlightController_init (configured (P := lamp) 0%nat "bf01" "" "k3y" "3.3")
  = (called (P := lamp) (CallSetVersion (P := lamp) 33%Z) None 2%nat
       (called (P := lamp) (CallOutletDevice "bf01" "Auto" "k3y") None 1%nat
          (configured (P := lamp) 0%nat "bf01" "" "k3y" "3.3")),
     Ok (MkController "bf01" "Auto" "k3y" "3.3"))
  /\ FloodlightController_init (configured (P := lamp) 0%nat "bf01" "192.168.1.20" "k3y" "3.3")
     = (called (P := lamp) (CallSetVersion (P := lamp) 33%Z) None 2%nat
          (called (P := lamp) (CallOutletDevice "bf01" "192.168.1.20" "k3y") None 1%nat
             (configured (P := lamp) 0%nat "bf01" "192.168.1.20" "k3y" "3.3")),
        Ok (MkController "bf01" "192.168.1.20" "k3y" "3.3")).
Proof.
  split.
  - exact (empty_ip_becomes_Auto (configured (P := lamp) 0%nat "bf01" "" "k3y" "3.3")
             "bf01" "" "k3y" "3.3" (ex_intro _ _ eq_refl) eq_refl eq_refl eq_refl eq_refl).
  - exact (empty_ip_becomes_Auto
             (configured (P := lamp) 0%nat "bf01" "192.168.1.20" "k3y" "3.3")
             "bf01" "192.168.1.20" "k3y" "3.3"
             (ex_intro _ _ eq_refl) eq_refl eq_refl eq_refl eq_refl).
Defined.

(** C5 as stated fails: with an empty address the library is called with
    ["Auto"], and no call carries ["auto-discover"]. *)
Lemma empty_ip_is_not_auto_discover :
  map fst (calls (FloodlightController_init
                    (configured (P := lamp) 0%nat "bf01" "" "k3y" "3.3")).1)
  = [CallOutletDevice (P := lamp) "bf01" "Auto" "k3y"; CallSetVersion (P := lamp) 33%Z]
  /\ ~ In (CallOutletDevice (P := lamp) "bf01" "auto-discover" "k3y")
         (map fst (calls (FloodlightController_init
                            (configured (P := lamp) 0%nat "bf01" "" "k3y" "3.3")).1)).
Proof.
  assert (H : map fst (calls (FloodlightController_init
                                (configured (P := lamp) 0%nat "bf01" "" "k3y" "3.3")).1)
              = [CallOutletDevice (P := lamp) "bf01" "Auto" "k3y";
                 CallSetVersion (P := lamp) 33%Z]) by reflexivity.
  split; [exact H|]. rewrite H. intros [H'|[H'|[]]]; discriminate H'.
Qed.

Lemma library_failure_propagates_witness :
  all_succeeded (calls (configured (P := dead_lamp) 0%nat "bf01" "192.168.1.20" "k3y" "3.3"))
  /\ @In (dev_call (P := dead_lamp) * option string) (CallStatus, Some "timeout")
       (calls (main CmdStatus
                 (configured (P := dead_lamp) 0%nat "bf01" "192.168.1.20" "k3y" "3.3")).1)
  /\ (main CmdStatus
        (configured (P := dead_lamp) 0%nat "bf01" "192.168.1.20" "k3y" "3.3")).2
     = Raise (LibError (P := dead_lamp) "timeout")
  /\ exists l,
       calls (main CmdStatus
                (configured (P := dead_lamp) 0%nat "bf01" "192.168.1.20" "k3y" "3.3")).1
       = l ++ [((CallStatus, Some "timeout") : dev_call (P := dead_lamp) * option string)].
Proof.
  assert (H1 : all_succeeded
                 (calls (configured (P := dead_lamp) 0%nat "bf01" "192.168.1.20" "k3y" "3.3")))
    by constructor.
  assert (H2 : @In (dev_call (P := dead_lamp) * option string) (CallStatus, Some "timeout")
                 (calls (main CmdStatus
                           (configured (P := dead_lamp) 0%nat "bf01" "192.168.1.20" "k3y" "3.3")).1))
    by (do 2 right; left; reflexivity).
  split; [exact H1|]. split; [exact H2|].
  exact (library_failure_propagates (P := dead_lamp) CmdStatus _ CallStatus "timeout" H1 H2).
Defined.



Lemma on_command_default_and_zero_witness :
  cli (CmdOn None) (configured (P := lamp) 0%nat "bf01" "192.168.1.20" "k3y" "3.3")
  = (MkWorld (P := lamp)
       (fs (configured (P := lamp) 0%nat "bf01" "192.168.1.20" "k3y" "3.3"))
       (config (configured (P := lamp) 0%nat "bf01" "192.168.1.20" "k3y" "3.3"))
       [] [] ([] ++ [LogOnBrightness 1000]) 4%nat
       ([(CallOutletDevice "bf01" "192.168.1.20" "k3y", None);
         (CallSetVersion (P := lamp) 33%Z, None)]
        ++ [(CallSetValue 20 (PyBool true), None); (CallSetValue 22 (PyInt 1000), None)]),
     Raise (SystemExit 0))
  /\ cli (CmdOn (Some 0%Z)) (configured (P := lamp) 0%nat "bf01" "192.168.1.20" "k3y" "3.3")
     = (MkWorld (P := lamp)
          (fs (configured (P := lamp) 0%nat "bf01" "192.168.1.20" "k3y" "3.3"))
          (config (configured (P := lamp) 0%nat "bf01" "192.168.1.20" "k3y" "3.3"))
          [] [] ([] ++ [LogOn]) 3%nat
          ([(CallOutletDevice "bf01" "192.168.1.20" "k3y", None);
            (CallSetVersion (P := lamp) 33%Z, None)]
           ++ [(CallSetValue 20 (PyBool true), None)]),
        Raise (SystemExit 0)).
Proof.
  assert (H1 : FloodlightController_init
                 (configured (P := lamp) 0%nat "bf01" "192.168.1.20" "k3y" "3.3")
               = (called (P := lamp) (CallSetVersion (P := lamp) 33%Z) None 2%nat
                    (called (P := lamp) (CallOutletDevice "bf01" "192.168.1.20" "k3y") None 1%nat
                       (configured (P := lamp) 0%nat "bf01" "192.168.1.20" "k3y" "3.3")),
                  Ok (MkController "bf01" "192.168.1.20" "k3y" "3.3")))
    by (reflexivity).
  split.
  - exact (proj1 (on_command_default_and_zero (P := lamp) _ _ _ 3%nat H1 eq_refl) 4%nat eq_refl).
  - exact (proj2 (on_command_default_and_zero (P := lamp) _ _ _ 3%nat H1 eq_refl)).
Defined.

Lemma unknown_codes_share_one_entry_witness :
  In ("25", PyInt 0) [("20", PyBool true); ("25", PyInt 0); ("26", PyInt 7)]
  /\ In ("26", PyInt 7) [("20", PyBool true); ("25", PyInt 0); ("26", PyInt 7)]
  /\ map_dps_values [("20", PyBool true); ("25", PyInt 0); ("26", PyInt 7)]
     = [("Power State", PyBool true); ("Unknown", PyInt 7)]
  /\ length (map_dps_values [("20", PyBool true); ("25", PyInt 0); ("26", PyInt 7)]) < 3.
Proof.
  assert (H25 : In ("25", PyInt 0) [("20", PyBool true); ("25", PyInt 0); ("26", PyInt 7)])
    by (right; left; reflexivity).
  assert (H26 : In ("26", PyInt 7) [("20", PyBool true); ("25", PyInt 0); ("26", PyInt 7)])
    by (right; right; left; reflexivity).
  split; [exact H25|]. split; [exact H26|]. split; [reflexivity|].
  exact (proj2 (proj2 (proj2 (proj2 (proj2
           (unknown_codes_share_one_entry _ (PyInt 0) (PyInt 7) H25 H26)))))).
Defined.

Lemma bad_version_raises_ValueError_witness :
  float (Platform := lamp) "three" = None
  /\ FloodlightController_init (configured (P := lamp) 0%nat "bf01" "" "k3y" "three")
     = (called (P := lamp) (CallOutletDevice "bf01" "Auto" "k3y") None 1%nat
          (configured (P := lamp) 0%nat "bf01" "" "k3y" "three"),
        Raise ValueError)
  /\ forall cmd handler,
       device_command cmd = true ->
       try_except_ConfigError (cli cmd) handler
         (configured (P := lamp) 0%nat "bf01" "" "k3y" "three")
       = (called (P := lamp) (CallOutletDevice "bf01" "Auto" "k3y") None 1%nat
            (configured (P := lamp) 0%nat "bf01" "" "k3y" "three"),
          Raise ValueError).
Proof.
  split; [reflexivity|].
  exact (bad_version_raises_ValueError
           (configured (P := lamp) 0%nat "bf01" "" "k3y" "three")
           "bf01" "" "k3y" "three" 1%nat
           (ex_intro _ _ eq_refl) eq_refl eq_refl eq_refl eq_refl eq_refl eq_refl).
Defined.

(** ** Further theorems at concrete runs *)

Lemma mapped_key_collides_only_on_25_26_witness :
  mapped_key "25" = mapped_key "26"
  /\ ("25" = "26" \/ (("25" = "25" \/ "25" = "26") /\ ("26" = "25" \/ "26" = "26"))).
Proof.
  split; [reflexivity|].
  exact (mapped_key_collides_only_on_25_26 "25" "26" eq_refl).
Defined.

Lemma map_dps_values_renames_witness :
  map_dps_values [("22", PyInt 500); ("20", PyBool true); ("101", PyInt 5); ("25", PyInt 0)]
  = map (fun kv => (mapped_key (fst kv), snd kv))
      [("22", PyInt 500); ("20", PyBool true); ("101", PyInt 5); ("25", PyInt 0)].
Proof.
  apply map_dps_values_renames.
  - repeat (constructor; [cbn; intros H; repeat (destruct H as [H|H]; [discriminate H|]);
                          exact H|]).
    constructor.
  - cbn. intros [_ H]. repeat (destruct H as [H|H]; [discriminate H|]). exact H.
Defined.

Lemma map_dps_values_last_wins_witness :
  dict_get (mapped_key "26")
    (map_dps_values ([("25", PyInt 0)] ++ ("26", PyInt 7) :: [("20", PyBool true)]))
  = Some (PyInt 7).
Proof.
  apply map_dps_values_last_wins.
  cbn. intros kv [<-|[]]. cbn. discriminate.
Defined.

Lemma status_command_on_answer_witness :
  device_status (tinytuya (Platform := erring_lamp)) 2%nat = (3%nat, inr (MkStatus None None))
  /\ forall handler,
       try_except_ConfigError (cli CmdStatus) handler
         (configured (P := erring_lamp) 0%nat "bf01" "192.168.1.20" "k3y" "3.3")
       = (called (P := erring_lamp) CallStatus None 3%nat
            (called (P := erring_lamp) (CallSetVersion (P := erring_lamp) 33%Z) None 2%nat
               (called (P := erring_lamp) (CallOutletDevice "bf01" "192.168.1.20" "k3y")
                  None 1%nat
                  (configured (P := erring_lamp) 0%nat "bf01" "192.168.1.20" "k3y" "3.3"))),
          Raise KeyError).
Proof.
  split; [reflexivity|]. intros handler.
  exact (status_command_on_answer (P := erring_lamp)
           (configured (P := erring_lamp) 0%nat "bf01" "192.168.1.20" "k3y" "3.3")
           _ (MkController "bf01" "192.168.1.20" "k3y" "3.3") 3%nat (MkStatus None None)
           handler eq_refl eq_refl).
Defined.

Lemma missing_option_is_not_handled_witness :
  exists e,
    parser_error e = true
    /\ FloodlightController_init (incomplete (P := lamp) 0%nat)
       = (incomplete (P := lamp) 0%nat, Raise e)
    /\ forall cmd handler,
         device_command cmd = true ->
         try_except_ConfigError (cli cmd) handler (incomplete (P := lamp) 0%nat)
         = (incomplete (P := lamp) 0%nat, Raise e).
Proof.
  exact (missing_option_is_not_handled (incomplete (P := lamp) 0%nat)
           (delete "device_key" (settings "bf01" "" "k3y" "3.3")) "device_key"
           (ex_intro _ _ eq_refl) eq_refl
           (or_intror (or_intror (or_introl eq_refl))) eq_refl eq_refl).
Defined.

Lemma run_starts_from_the_file_witness :
  main CmdOff (stale (P := lamp) 0%nat)
  = cli CmdOff
      (set_config
         (MkConfig {["colour" := "red"]}
            {["Floodlight" := <["note" := "old"]> (settings "old" "10.0.0.9" "oldkey" "3.1")]})
         (stale (P := lamp) 0%nat)).
Proof.
  exact (run_starts_from_the_file CmdOff (stale (P := lamp) 0%nat) _ eq_refl
           (ex_intro _ _ eq_refl)).
Defined.




Lemma end_of_input_at_load_aborts_witness :
  (main (CmdOn None) (first_run (P := lamp) 0%nat ["bf01"; ""; "192.168.1.20"])).2
  = Raise Abort
  /\ fs (main (CmdOn None) (first_run (P := lamp) 0%nat ["bf01"; ""; "192.168.1.20"])).1
     = None
  /\ calls (main (CmdOn None) (first_run (P := lamp) 0%nat ["bf01"; ""; "192.168.1.20"])).1
     = [].
Proof.
  apply (end_of_input_at_load_aborts (CmdOn None)
           (first_run (P := lamp) 0%nat ["bf01"; ""; "192.168.1.20"])
           (or_introl eq_refl)).
  cbn. lia.
Defined.

